(** * mxEdgeHandler: gesture-to-geometry pipeline of the edge handler

    A shallow embedding of [js/handler/mxEdgeHandler.js]: hit-testing of
    handles, the preview computed on every mouse move, and the commit
    operations applied to the graph model on mouse up.

    Conventions of the embedding:
    - A JavaScript number is the rational it denotes ([Q]); [fl] rounds
      an exact result to the nearest IEEE double, and [Math.round],
      [convertPoint], [moveLabel] and [createHandleShape] compute with
      it.  NaN only appears where the source coerces an array to a number
      and is written [None] there.
    - [null] and [undefined] are [None]; a JavaScript array is a list of
      optional entries ([jsarray]), [None] being a hole or a null entry.
    - mxCell objects live in a store indexed by references, so that
      [edge.clone()] yields a new identity and [==] on cells is reference
      equality.
    - Code of the handler that only reads the model and updates [this]
      runs in the monad [H]; code that calls the model runs in [M], which
      also records the calls made to the collaborators. *)

From Stdlib Require Import QArith Qround Qabs Lia.
From stdpp Require Import gmap list strings.

(** ** Numbers *)

Definition Qlt_bool (a b : Q) : bool := negb (Qle_bool b a).

(** *** Doubles *)

(** Two to the power [e]. *)
Definition pow2 (e : Z) : Q :=
  match e with
  | Z0 => 1
  | Zpos p => inject_Z (2 ^ Zpos p)
  | Zneg p => 1 # (2 ^ p)
  end.

(** The integer nearest to [q], a tie going to the even one. *)
Definition round_half_even (q : Q) : Z :=
  let f := Qfloor q in
  match (q - inject_Z f ?= 1 # 2)%Q with
  | Lt => f
  | Gt => (f + 1)%Z
  | Eq => if Z.even f then f else (f + 1)%Z
  end.

(** The exponent [e] with [2^e <= |q| < 2^(e+1)], for [q] other than 0. *)
Definition binade (q : Q) : Z :=
  let a := Qabs q in
  let e := (Z.log2 (Qnum a) - Z.log2 (Zpos (Qden a)))%Z in
  if Qle_bool (pow2 e) a then e else (e - 1)%Z.

(** The double nearest to [q]: 53 significant bits, round to nearest,
    ties to even.  This is what an arithmetic operation on doubles
    returns when its exact result is [q].  The exponent is not bounded:
    overflow to Infinity and subnormal numbers are not represented. *)
Definition fl (q : Q) : Q :=
  if Qeq_bool q 0 then 0
  else
    let ulp := pow2 (binade q - 52) in
    Qred (inject_Z (round_half_even (q / ulp)) * ulp).

(** [a - b] and [a / b] on doubles. *)
Definition num_sub (a b : Q) : Q := fl (a - b).
Definition num_div (a b : Q) : Q := fl (a / b).

(** [Math.round] of the double nearest to [q]: the nearest integer, halves
    rounded up. *)
Definition Math_round (q : Q) : Q := inject_Z (Qfloor (fl q + (1 # 2))).

(** ** Geometry values *)

Record mxPoint := MkPoint { px : Q; py : Q }.

Record mxRectangle := MkRect { rx : Q; ry : Q; rwidth : Q; rheight : Q }.

Definition getCenterX (r : mxRectangle) : Q := (rx r + rwidth r / 2)%Q.
Definition getCenterY (r : mxRectangle) : Q := (ry r + rheight r / 2)%Q.

(** A JavaScript array: entries are optional ([None] is a hole, [null] or
    [undefined]). *)
Abbreviation jsarray A := (list (option A)).

(** [a[k] = v]: a negative key is an ordinary property and leaves the
    elements alone; a key past the end extends the array with holes. *)
Definition js_array_put {A} (a : jsarray A) (k : Z) (v : option A) : jsarray A :=
  if (k <? 0)%Z then a
  else
    let n := Z.to_nat k in
    if (n <? length a)%nat then <[n := v]> a
    else a ++ replicate (n - length a) None ++ [v].

Definition js_array_set {A} (a : jsarray A) (k : Z) (v : A) : jsarray A :=
  js_array_put a k (Some v).

(** [a[k]] for a number [k]. *)
Definition js_array_get {A} (a : jsarray A) (k : Z) : option A :=
  if (k <? 0)%Z then None else mjoin (a !! Z.to_nat k).

(** [a.splice(start, 0, v)]: relative start positions count from the end,
    and the position is clamped to the array. *)
Definition js_splice_pos (len : nat) (start : Z) : nat :=
  if (start <? 0)%Z then Z.to_nat (Z.max (Z.of_nat len + start) 0)
  else Nat.min (Z.to_nat start) len.

Definition js_splice_insert {A} (a : jsarray A) (start : Z) (v : A) : jsarray A :=
  let p := js_splice_pos (length a) start in
  take p a ++ Some v :: drop p a.

(** [a.splice(start, 1)]. *)
Definition js_splice_remove {A} (a : jsarray A) (start : Z) : jsarray A :=
  let p := js_splice_pos (length a) start in
  take p a ++ drop (S p) a.

(** ** The graph model: cells and their geometry *)

Abbreviation cell := positive.

(** Modelled from the spec: the persisted per-edge Geometry of section 3
    (mxGeometry is not part of this file): relative anchor, optional label
    offset, optional waypoints, optional explicit terminal points. *)
Record mxGeometry := MkGeometry {
  gx : Q;
  gy : Q;
  goffset : option mxPoint;
  gpoints : option (jsarray mxPoint);
  gsourcePoint : option mxPoint;
  gtargetPoint : option mxPoint
}.

Definition geo_set_points (g : mxGeometry) (ps : option (jsarray mxPoint)) : mxGeometry :=
  MkGeometry (gx g) (gy g) (goffset g) ps (gsourcePoint g) (gtargetPoint g).

Definition geo_set_xy (g : mxGeometry) (x y : Q) : mxGeometry :=
  MkGeometry x y (goffset g) (gpoints g) (gsourcePoint g) (gtargetPoint g).

Definition geo_set_offset (g : mxGeometry) (o : option mxPoint) : mxGeometry :=
  MkGeometry (gx g) (gy g) o (gpoints g) (gsourcePoint g) (gtargetPoint g).

(** Modelled from the spec: [geo.setTerminalPoint(point, isSource)] sets
    the explicit terminal point of that end (CommitOps, ChangeTerminalPoint). *)
Definition setTerminalPoint (g : mxGeometry) (p : mxPoint) (isSource : bool) : mxGeometry :=
  if isSource
  then MkGeometry (gx g) (gy g) (goffset g) (gpoints g) (Some p) (gtargetPoint g)
  else MkGeometry (gx g) (gy g) (goffset g) (gpoints g) (gsourcePoint g) (Some p).

(** Modelled from the spec: an mxCell as the model sees it (section 6):
    geometry, parent, the two terminals and the children. *)
Record mxCell := MkCell {
  geometry : option mxGeometry;
  parent : option cell;
  source : option cell;
  target : option cell;
  children : list cell
}.

Record mxConnectionConstraint := MkConstraint {
  cc_point : option mxPoint;
  cc_perimeter : bool
}.

(** [new mxConnectionConstraint()]. *)
Definition default_constraint : mxConnectionConstraint := MkConstraint None true.

(** ** View states, shapes and events *)

(** The view state of a terminal or of a parent cell. *)
Record mxCellState := MkState {
  cs_cell : cell;
  cs_origin : mxPoint
}.

(** A handle shape: its DOM node and the style and bounds the hit test
    reads. *)
Record mxShape := MkShape {
  node : nat;
  display_none : bool;
  visibility_hidden : bool;
  bounds : mxRectangle
}.

(** The view state of the edge being handled. *)
Record mxEdgeState := MkEdgeState {
  es_cell : cell;
  absolutePoints : option (jsarray mxPoint);
  absoluteOffset : mxPoint;
  visibleSourceState : option mxCellState;
  visibleTargetState : option mxCellState;
  text : option mxShape
}.

Definition getVisibleTerminalState (s : mxEdgeState) (isSource : bool) : option mxCellState :=
  if isSource then visibleSourceState s else visibleTargetState s.

Definition es_set_absolutePoints (s : mxEdgeState) (ps : option (jsarray mxPoint)) : mxEdgeState :=
  MkEdgeState (es_cell s) ps (absoluteOffset s) (visibleSourceState s)
    (visibleTargetState s) (text s).

Record mxMouseEvent := MkEvent {
  getX : Q;
  getY : Q;
  getGraphX : Q;
  getGraphY : Q;
  isMouseEvent : bool;
  isShiftDown : bool;
  isConsumed : bool;
  me_cell : option cell;
  (* [sourceIn n]: the DOM node [n] is an ancestor of the event source *)
  sourceIn : nat -> bool
}.

(** [me.isSource(shape)] *)
Definition me_isSource (me : mxMouseEvent) (shape : option mxShape) : bool :=
  match shape with
  | Some s => sourceIn me (node s)
  | None => false
  end.

(** ** Marker and constraint handler *)

(** Modelled from the spec: the TerminalMarker state the handler reads
    ([getValidState], [hasValidState], [getMarkedState], [reset]);
    mxCellMarker is not part of this file. *)
Record mxCellMarker := MkMarker {
  markedState : option mxCellState;
  validState : option mxCellState
}.

Definition marker_reset (m : mxCellMarker) : mxCellMarker := MkMarker None None.

Definition hasValidState (m : mxCellMarker) : bool :=
  match validState m with Some _ => true | None => false end.

(** Modelled from the spec: the two fields of the ConstraintHandler. *)
Record mxConstraintHandler := MkConstraintHandler {
  currentFocus : option mxCellState;
  currentConstraint : option mxConnectionConstraint
}.

Definition constraint_reset (c : mxConstraintHandler) : mxConstraintHandler :=
  MkConstraintHandler None None.

(** ** The handler *)

Inductive color := SelectionColor | ValidColor | InvalidColor.

(** [handleImage]: only its size matters for the handles. *)
Record mxImage := MkImage {
  img_width : Q;
  img_height : Q
}.

(** The prototype switches of the handler. *)
Record Config := MkConfig {
  cloneEnabled : bool;
  addEnabled : bool;
  removeEnabled : bool;
  allowHandleBoundsCheck : bool;
  snapToTerminals : bool;
  tolerance : Q;
  handleImage : option mxImage
}.

(** The fields written by [start], [mouseMove] and [reset]. *)
Record Session := MkSession {
  startX : Q;
  startY : Q;
  index : option Z;
  isSource : bool;
  isTarget : bool;
  isLabel : bool;
  active : bool;
  error : option string;
  points : option (jsarray mxPoint)
}.

(** The shapes of the handler and the points they are drawn from. *)
Record Handles := MkHandles {
  shape : option color;           (* the preview polyline and its stroke *)
  bends : option (jsarray mxShape);
  labelShape : option mxShape;
  label : option mxPoint;
  abspoints : option (jsarray mxPoint);
  preferHtml : bool               (* handles are drawn in the container *)
}.

Record mxEdgeHandler := MkHandler {
  cfg : Config;
  state : mxEdgeState;
  marker : option mxCellMarker;
  constraintHandler : option mxConstraintHandler;
  ses : Session;
  hnd : Handles
}.

(** ** Calls to the collaborators *)

Inductive CommitOp := OpMoveLabel | OpConnect | OpChangeTerminalPoint | OpChangePoints
                    | OpAddPointAt | OpRemovePoint.

Inductive Call :=
| BeginUpdate
| EndUpdate
| CloneCell (original clone : cell)
| ModelAdd (p : option cell) (child : cell) (idx : nat)
| ConnectCell (edge : cell) (terminal : option cell) (isSource : bool)
              (constraint : option mxConnectionConstraint)
| SetGeometry (c : cell) (g : mxGeometry)
| ValidationAlert (msg : string)
| Invalidate (c : cell)
| Revalidate (c : cell)
| SetSelectionCell (c : cell)
(* ghost entry: a commit operation of the handler has been entered *)
| Invoked (op : CommitOp).

Definition is_mutation (c : Call) : bool :=
  match c with
  | CloneCell _ _ | ModelAdd _ _ _ | ConnectCell _ _ _ _ | SetGeometry _ _ => true
  | _ => false
  end.

Definition is_bracket (c : Call) : bool :=
  match c with
  | BeginUpdate | EndUpdate => true
  | _ => false
  end.

Definition is_invoked (c : Call) : bool :=
  match c with
  | Invoked _ => true
  | _ => false
  end.

(** ** The environment: configuration and collaborators outside this file *)

Record Env := MkEnv {
  (* mxClient, mxEvent, mxConstants *)
  IS_IE : bool;
  LABEL_HANDLE : Z;
  LABEL_HANDLE_SIZE : Q;
  HANDLE_SIZE : Q;
  (* mxUtils *)
  intersects : mxRectangle -> mxRectangle -> bool;
  findNearestSegment : mxEdgeState -> Q -> Q -> Z;
  utils_convertPoint : mxMouseEvent -> mxPoint;
  (* graph policy *)
  gridSize : Q;
  snap : Q -> Q;
  isGridEnabledEvent : mxMouseEvent -> bool;
  isCloneEvent : mxMouseEvent -> bool;
  isCellsCloneable : bool;
  allowDanglingEdges : bool;
  resetEdgesOnConnect : bool;
  connectableEdges : bool;
  isEnabled : bool;
  createsBends : bool;             (* selection count below maxCells *)
  isLabelMovable : option cell -> bool;
  hasLabel : cell -> bool;         (* getLabel(cell) is a non-empty string *)
  isCellBendable : cell -> bool;
  isTerminalPointMovable : cell -> bool -> bool;
  isCellDisconnectable : cell -> cell -> bool -> bool;
  isSwimlane : option cell -> bool;
  hitsSwimlaneContent : option cell -> Q -> Q -> bool;
  isEdge : cell -> bool;
  isAncestor : cell -> option cell -> bool;
  getCellAt : Q -> Q -> option cell;
  panDx : Q;
  panDy : Q;
  getEdgeValidationError : cell -> option cell -> option cell -> option string;
  getConnectionConstraint : mxEdgeState -> option mxCellState -> bool -> mxConnectionConstraint;
  (* view *)
  scale : Q;
  translate : mxPoint;
  view_getState : option cell -> option mxCellState;
  getRoutingCenterX : mxCellState -> Q;
  getRoutingCenterY : mxCellState -> Q;
  getRelativePoint : mxEdgeState -> Q -> Q -> mxPoint;
  getPoint : mxEdgeState -> mxGeometry -> mxPoint;
  getTerminalPort : mxCellState -> option mxCellState -> bool -> option mxCellState;
  updateFixedTerminalPoint :
    mxEdgeState -> option mxCellState -> bool -> mxConnectionConstraint -> mxEdgeState;
  updatePoints :
    mxEdgeState -> option (jsarray mxPoint) -> option mxCellState -> option mxCellState ->
    mxEdgeState;
  updateFloatingTerminalPoints :
    mxEdgeState -> option mxCellState -> option mxCellState -> mxEdgeState;
  (* marker and constraint handler *)
  marker_baseGetCell : mxMouseEvent -> option cell;
  constraint_update : mxMouseEvent -> bool -> mxConstraintHandler -> mxConstraintHandler;
  nodeOf : Z -> nat;               (* the DOM node created for a handle *)
  inContainer : nat -> bool;       (* node.parentNode == graph.container *)
  cs_text : mxCellState -> option mxShape;   (* the text shape of a cell state *)
  (* failures of the model layer, and the listener that rebuilds handlers *)
  throws : Call -> gmap cell mxCell -> bool;
  refreshes : Call -> bool
}.

(** ** Outcomes and the two monads *)

Inductive exn :=
| TypeError              (* a property of null or undefined was read *)
| ModelFailure (c : Call).

Inductive outcome (A : Type) :=
| Normal (a : A)
| Throw (e : exn).
Arguments Normal {A} a.
Arguments Throw {A} e.

(** State and exceptions over a state [S]. *)
Definition SE (S A : Type) : Type := S -> outcome A * S.

Definition se_ret {S A} (a : A) : SE S A := fun s => (Normal a, s).

Definition se_bind {S A B} (m : SE S A) (k : A -> SE S B) : SE S B :=
  fun s => match m s with
           | (Normal a, s') => k a s'
           | (Throw e, s') => (Throw e, s')
           end.

Definition se_throw {S A} (e : exn) : SE S A := fun s => (Throw e, s).

Definition se_get {S} : SE S S := fun s => (Normal s, s).

Definition se_modify {S} (f : S -> S) : SE S unit := fun s => (Normal tt, f s).

(** [try { m } finally { f }] *)
Definition try_finally {S A} (m : SE S A) (f : SE S unit) : SE S A :=
  fun s => match m s with
           | (r, s') =>
             match f s' with
             | (Normal _, s'') => (r, s'')
             | (Throw e, s'') => (Throw e, s'')
             end
           end.

(** Reading a property of a possibly-null value. *)
Definition deref {S A} (o : option A) : SE S A :=
  match o with
  | Some a => se_ret a
  | None => se_throw TypeError
  end.

Definition when_ {S} (b : bool) (m : SE S unit) : SE S unit :=
  if b then m else se_ret tt.

Declare Scope se_scope.
Delimit Scope se_scope with se.
Notation "'do' x <- m ; k" := (se_bind m (fun x => k))
  (at level 10, x name, m at level 100, k at level 200) : se_scope.
Notation "m ;; k" := (se_bind m (fun _ => k))
  (at level 100, k at level 200, right associativity) : se_scope.
Open Scope se_scope.

(** The handler-local monad. *)
Abbreviation H A := (SE mxEdgeHandler A).

(** ** Field updates of the handler *)

Definition set_ses (f : Session -> Session) (h : mxEdgeHandler) : mxEdgeHandler :=
  MkHandler (cfg h) (state h) (marker h) (constraintHandler h) (f (ses h)) (hnd h).

Definition set_hnd (f : Handles -> Handles) (h : mxEdgeHandler) : mxEdgeHandler :=
  MkHandler (cfg h) (state h) (marker h) (constraintHandler h) (ses h) (f (hnd h)).

Definition set_marker (m : option mxCellMarker) (h : mxEdgeHandler) : mxEdgeHandler :=
  MkHandler (cfg h) (state h) m (constraintHandler h) (ses h) (hnd h).

Definition set_constraintHandler (c : option mxConstraintHandler) (h : mxEdgeHandler)
  : mxEdgeHandler :=
  MkHandler (cfg h) (state h) (marker h) c (ses h) (hnd h).

Definition ses_start (x y : Q) (src tgt lbl : bool) (s : Session) : Session :=
  MkSession x y (index s) src tgt lbl (active s) (error s) (points s).

Definition ses_index (i : option Z) (s : Session) : Session :=
  MkSession (startX s) (startY s) i (isSource s) (isTarget s) (isLabel s) (active s)
    (error s) (points s).

Definition ses_error (e : option string) (s : Session) : Session :=
  MkSession (startX s) (startY s) (index s) (isSource s) (isTarget s) (isLabel s)
    (active s) e (points s).

Definition ses_points (ps : option (jsarray mxPoint)) (s : Session) : Session :=
  MkSession (startX s) (startY s) (index s) (isSource s) (isTarget s) (isLabel s)
    (active s) (error s) ps.

Definition ses_active (a : bool) (s : Session) : Session :=
  MkSession (startX s) (startY s) (index s) (isSource s) (isTarget s) (isLabel s)
    a (error s) (points s).

(** The assignments of [reset] to the session fields. *)
Definition ses_reset (s : Session) : Session :=
  MkSession (startX s) (startY s) None false false false false None None.

Definition hnd_shape (c : option color) (x : Handles) : Handles :=
  MkHandles c (bends x) (labelShape x) (label x) (abspoints x) (preferHtml x).

Definition hnd_bends (b : option (jsarray mxShape)) (x : Handles) : Handles :=
  MkHandles (shape x) b (labelShape x) (label x) (abspoints x) (preferHtml x).

Definition hnd_labelShape (s : option mxShape) (x : Handles) : Handles :=
  MkHandles (shape x) (bends x) s (label x) (abspoints x) (preferHtml x).

Definition hnd_label (p : option mxPoint) (x : Handles) : Handles :=
  MkHandles (shape x) (bends x) (labelShape x) p (abspoints x) (preferHtml x).

Definition hnd_abspoints (a : option (jsarray mxPoint)) (x : Handles) : Handles :=
  MkHandles (shape x) (bends x) (labelShape x) (label x) a (preferHtml x).

Definition hnd_preferHtml (b : bool) (x : Handles) : Handles :=
  MkHandles (shape x) (bends x) (labelShape x) (label x) (abspoints x) b.

Definition shape_set_bounds (b : mxRectangle) (s : mxShape) : mxShape :=
  MkShape (node s) (display_none s) (visibility_hidden s) b.

Definition shape_set_hidden (v : bool) (s : mxShape) : mxShape :=
  MkShape (node s) (display_none s) v (bounds s).

(** [for (var i = lo; i < hi; i++) body(i)] *)
Definition for_range {S} (lo hi : Z) (body : Z -> SE S unit) : SE S unit :=
  foldr (fun i k => body i ;; k) (se_ret tt) (seqZ lo (hi - lo)).

Definition getTerminal (mdl : gmap cell mxCell) (c : cell) (isSource : bool) : option cell :=
  match mdl !! c with
  | Some x => if isSource then source x else target x
  | None => None
  end.

Definition getGeometry (mdl : gmap cell mxCell) (c : cell) : option mxGeometry :=
  match mdl !! c with
  | Some x => geometry x
  | None => None
  end.

Definition getParent (mdl : gmap cell mxCell) (c : cell) : option cell :=
  match mdl !! c with
  | Some x => parent x
  | None => None
  end.

Definition getChildCount (mdl : gmap cell mxCell) (p : option cell) : nat :=
  match p with
  | Some c => match mdl !! c with Some x => length (children x) | None => 0%nat end
  | None => 0%nat
  end.

(** The state of the whole: the handler, the cells of the model, the
    depth of the open transactions and the record of the calls made. *)
Record World := MkWorld {
  this : mxEdgeHandler;
  model : gmap cell mxCell;
  updateLevel : nat;
  trace : list Call
}.

Abbreviation M A := (SE World A).

Definition set_this (h : mxEdgeHandler) (w : World) : World :=
  MkWorld h (model w) (updateLevel w) (trace w).

Definition log (c : Call) (w : World) : World :=
  MkWorld (this w) (model w) (updateLevel w) (trace w ++ [c]).

Section Handler.

Variable E : Env.

(** [view.getState(cell)], null for a null cell. *)
Definition getState (c : option cell) : option mxCellState :=
  match c with
  | Some _ => view_getState E c
  | None => None
  end.

(** *** Hit testing: getHandleForEvent *)

Definition hit_tolerance (h : mxEdgeHandler) (me : mxMouseEvent) : Q :=
  if negb (isMouseEvent me) then tolerance (cfg h) else 1%Q.

Definition hit_rectangle (h : mxEdgeHandler) (me : mxMouseEvent) : option mxRectangle :=
  let tol := hit_tolerance h me in
  if allowHandleBoundsCheck (cfg h) && (IS_IE E || Qlt_bool 0 tol)
  then Some (MkRect (getGraphX me - tol) (getGraphY me - tol) (2 * tol) (2 * tol))%Q
  else None.

(** The guard of [checkShape]. *)
Definition shape_hit (hit : option mxRectangle) (me : mxMouseEvent) (s : option mxShape)
  : bool :=
  match s with
  | None => false
  | Some sh =>
    negb (display_none sh) && negb (visibility_hidden sh) &&
    (me_isSource me s ||
     match hit with
     | Some r => intersects E (bounds sh) r
     | None => false
     end)
  end.

Definition distSq (me : mxMouseEvent) (sh : mxShape) : Q :=
  let dx := (getGraphX me - getCenterX (bounds sh))%Q in
  let dy := (getGraphY me - getCenterY (bounds sh))%Q in
  (dx * dx + dy * dy)%Q.

(** [checkShape], with the captured variable [minDistSq] passed through. *)
Definition checkShape (hit : option mxRectangle) (me : mxMouseEvent)
    (minDistSq : option Q) (s : option mxShape) : bool * option Q :=
  match s with
  | Some sh =>
    if shape_hit hit me s then
      let tmp := distSq me sh in
      match minDistSq with
      | None => (true, Some tmp)
      | Some m => if Qle_bool tmp m then (true, Some tmp) else (false, minDistSq)
      end
    else (false, minDistSq)
  | None => (false, minDistSq)
  end.

(** The loop over [this.bends]. *)
Fixpoint checkBends (hit : option mxRectangle) (me : mxMouseEvent)
    (bs : jsarray mxShape) (i : Z) (minDistSq : option Q) (result : option Z)
  : option Z :=
  match bs with
  | [] => result
  | b :: bs' =>
    let '(ok, m') := checkShape hit me minDistSq b in
    checkBends hit me bs' (i + 1)%Z m' (if ok then Some i else result)
  end.

Definition getHandleForEvent (h : mxEdgeHandler) (me : mxMouseEvent) : option Z :=
  let hit := hit_rectangle h me in
  let '(lab, m0) :=
    if me_isSource me (text (state h)) then (true, None)
    else checkShape hit me None (labelShape (hnd h)) in
  let result := if lab then Some (LABEL_HANDLE E) else None in
  match bends (hnd h) with
  | Some bs => checkBends hit me bs 0%Z m0 result
  | None => result
  end.

(** *** Pointer conversion: getPointForEvent *)

Definition getSnapToTerminalTolerance : Q := (gridSize E * scale E / 2)%Q.

(** The state shared by the nested functions of [getPointForEvent]:
    [point], [overrideX] and [overrideY]. *)
Record SnapState := MkSnap { sn_point : mxPoint; overrideX : bool; overrideY : bool }.

Definition snapToPoint (tt : Q) (st : SnapState) (pt : option mxPoint) : SnapState :=
  match pt with
  | None => st
  | Some p =>
    let st1 :=
      if Qlt_bool (Qabs (px (sn_point st) - px p)) tt
      then MkSnap (MkPoint (px p) (py (sn_point st))) true (overrideY st)
      else st in
    if Qlt_bool (Qabs (py (sn_point st1) - py p)) tt
    then MkSnap (MkPoint (px (sn_point st1)) (py p)) (overrideX st1) true
    else st1
  end.

Definition snapToTerminal (tt : Q) (st : SnapState) (terminal : option mxCellState)
  : SnapState :=
  match terminal with
  | Some t => snapToPoint tt st (Some (MkPoint (getRoutingCenterX E t) (getRoutingCenterY E t)))
  | None => st
  end.

(** The right operand of [i < this.abspoints]: the array is converted to a
    primitive by joining its elements and then to a number.  An empty
    array and an array holding one null give the empty string, hence 0;
    anything else (an object prints as [[object Object]], two or more
    entries are joined by commas) is not numeric: NaN, here [None]. *)
Definition array_ToNumber (a : jsarray mxPoint) : option Z :=
  match a with
  | [] => Some 0%Z
  | [None] => Some 0%Z
  | _ => None
  end.

(** [i != this.index] for a number [i]. *)
Definition differs_from_index (i : Z) (idx : option Z) : bool :=
  match idx with
  | Some k => negb (i =? k)%Z
  | None => true
  end.

(** [for (var i = 0; i < this.abspoints; i++)]: a comparison with NaN is
    false, so the body is not entered then. *)
Definition snapToAbspoints (tt : Q) (idx : option Z) (a : jsarray mxPoint) (st : SnapState)
  : SnapState :=
  match array_ToNumber a with
  | None => st
  | Some n =>
    foldl (fun s i => if differs_from_index i idx then snapToPoint tt s (js_array_get a i) else s)
          st (seqZ 0 n)
  end.

Definition gridPoint (me : mxMouseEvent) (st : SnapState) : mxPoint :=
  if isGridEnabledEvent E me then
    let sc := scale E in
    let tr := translate E in
    let p := sn_point st in
    MkPoint
      (if overrideX st then px p else (snap E (px p / sc - px tr) + px tr) * sc)%Q
      (if overrideY st then py p else (snap E (py p / sc - py tr) + py tr) * sc)%Q
  else sn_point st.

(** The two calls of [snapToTerminal]. *)
Definition snapTerminals (tt : Q) (h : mxEdgeHandler) (st : SnapState) : SnapState :=
  let st := snapToTerminal tt st (getVisibleTerminalState (state h) true) in
  snapToTerminal tt st (getVisibleTerminalState (state h) false).

Definition snapPhase (h : mxEdgeHandler) (me : mxMouseEvent) : SnapState :=
  let st := MkSnap (MkPoint (getGraphX me) (getGraphY me)) false false in
  let tt := getSnapToTerminalTolerance in
  if snapToTerminals (cfg h) && Qlt_bool 0 tt then
    let st := snapTerminals tt h st in
    match abspoints (hnd h) with
    | Some a => snapToAbspoints tt (index (ses h)) a st
    | None => st
    end
  else st.

Definition getPointForEvent (h : mxEdgeHandler) (me : mxMouseEvent) : mxPoint :=
  gridPoint me (snapPhase h me).

(** *** convertPoint *)

Definition convertPoint (mdl : gmap cell mxCell) (h : mxEdgeHandler) (point : mxPoint)
    (gridEnabled : bool) : mxPoint :=
  let sc := scale E in
  let tr := translate E in
  let p := if gridEnabled then MkPoint (snap E (px point)) (snap E (py point)) else point in
  let p := MkPoint (Math_round (num_div (px p) sc - px tr))
                   (Math_round (num_div (py p) sc - py tr)) in
  match getState (getParent mdl (es_cell (state h))) with
  | Some pstate => MkPoint (num_sub (px p) (px (cs_origin pstate)))
                           (num_sub (py p) (py (cs_origin pstate)))
  | None => p
  end.

(** *** The marker created by createMarker *)

(** [marker.getCell] as overridden in [createMarker]. *)
Definition marker_getCell (h : mxEdgeHandler) (me : mxMouseEvent) : option cell :=
  let self_cell := es_cell (state h) in
  let c := marker_baseGetCell E me in
  let point := getPointForEvent h me in
  let c :=
    if bool_decide (c = Some self_cell) || bool_decide (c = None) then
      let c' := getCellAt E (px point) (py point) in
      if bool_decide (Some self_cell = c') then None else c'
    else c in
  if (isSwimlane E c && hitsSwimlaneContent E c (px point) (py point))
     || negb true (* isConnectableCell *)
     || (bool_decide (c = Some self_cell)
         || match c with
            | Some x => negb (connectableEdges E) && isEdge E x
            | None => false
            end)
     || isAncestor E self_cell c
  then None else c.

Definition validateConnection (h : mxEdgeHandler) (src tgt : option cell) : option string :=
  getEdgeValidationError E (es_cell (state h)) src tgt.

(** [marker.isValidState] as overridden in [createMarker]: it stores the
    validation error in the handler. *)
Definition marker_isValidState (mdl : gmap cell mxCell) (st : mxCellState) : H bool :=
  do h <- se_get;
  let src := isSource (ses h) in
  let other :=
    getTerminalPort E st (getState (getTerminal mdl (es_cell (state h)) (negb src)))
      (negb src) in
  let otherCell := cs_cell <$> other in
  let s := if src then Some (cs_cell st) else otherCell in
  let t := if src then otherCell else Some (cs_cell st) in
  let err := validateConnection h s t in
  se_modify (set_ses (ses_error err)) ;;
  se_ret (bool_decide (err = None)).

(** Modelled from the spec: [marker.process(me)] finds the candidate state
    under the pointer through the [getCell] hook, validates it through the
    [isValidState] hook and exposes it as marked, and as valid when the
    hook accepts it (mxCellMarker is not part of this file). *)
Definition marker_process (mdl : gmap cell mxCell) (me : mxMouseEvent) : H unit :=
  do h <- se_get;
  do _m <- deref (marker h);
  let st := getState (marker_getCell h me) in
  do valid <- match st with
              | Some s => marker_isValidState mdl s
              | None => se_ret false
              end;
  se_modify (set_marker (Some (MkMarker st (if valid then st else None)))).

(** *** The preview: getPreviewTerminalState, getPreviewPoints,
    updatePreviewState *)

(** The first two statements of [getPreviewTerminalState]:
    [constraintHandler.update(me, this.isSource)] and [marker.process(me)]. *)
Definition updateAndProcess (mdl : gmap cell mxCell) (me : mxMouseEvent) : H unit :=
  do h <- se_get;
  do ch <- deref (constraintHandler h);
  se_modify (set_constraintHandler (Some (constraint_update E me (isSource (ses h)) ch))) ;;
  marker_process mdl me.

Definition getPreviewTerminalState (mdl : gmap cell mxCell) (me : mxMouseEvent)
  : H (option mxCellState) :=
  updateAndProcess mdl me ;;
  do h <- se_get;
  do m <- deref (marker h);
  let currentState := validState m in
  do ch <- deref (constraintHandler h);
  when_ (bool_decide (currentFocus ch <> None) && bool_decide (currentConstraint ch <> None))
        (se_modify (set_marker (Some (marker_reset m)))) ;;
  se_ret
    match currentState with
    | Some s => Some s
    | None =>
      if bool_decide (currentConstraint ch <> None) && bool_decide (currentFocus ch <> None)
      then currentFocus ch
      else None
    end.

(** [this.index - 1]; null converts to 0. *)
Definition index_minus_1 (idx : option Z) : Z :=
  match idx with
  | Some i => (i - 1)%Z
  | None => (-1)%Z
  end.

(** Returns the previewed points together with [point], which
    [convertPoint] changes in place. *)
Definition getPreviewPoints (mdl : gmap cell mxCell) (point : mxPoint)
  : H (option (jsarray mxPoint) * mxPoint) :=
  do h <- se_get;
  do geo <- deref (getGeometry mdl (es_cell (state h)));
  let pts := gpoints geo in
  if negb (isSource (ses h)) && negb (isTarget (ses h)) then
    let point' := convertPoint mdl h point false in
    match pts with
    | None => se_ret (Some [Some point'], point')
    | Some ps => se_ret (Some (js_array_set ps (index_minus_1 (index (ses h))) point'), point')
    end
  else if resetEdgesOnConnect E then se_ret (None, point)
  else se_ret (pts, point).

(** Modelled from the spec: [edge.setAbsoluteTerminalPoint(point, isSource)]
    sets the first or the last absolute point of the preview state
    (mxCellState is not part of this file). *)
Definition setAbsoluteTerminalPoint (edge : mxEdgeState) (point : mxPoint) (isSource : bool)
  : mxEdgeState :=
  let a := default [] (absolutePoints edge) in
  es_set_absolutePoints edge
    (Some
       (if isSource then
          match a with
          | [] => [Some point]
          | _ => js_array_set a 0 point
          end
        else
          match absolutePoints edge with
          | None => [None; Some point]
          | Some [x] => [x; Some point]
          | Some a' => js_array_set a' (Z.of_nat (length a') - 1) point
          end)).

Definition updatePreviewState (edge : mxEdgeState) (point : mxPoint)
    (terminalState : option mxCellState) : H mxEdgeState :=
  do h <- se_get;
  let src := isSource (ses h) in
  let tgt := isTarget (ses h) in
  let sourceState := if src then terminalState else getVisibleTerminalState (state h) true in
  let targetState := if tgt then terminalState else getVisibleTerminalState (state h) false in
  let sourceConstraint := getConnectionConstraint E edge sourceState true in
  let targetConstraint := getConnectionConstraint E edge targetState false in
  do ch <- deref (constraintHandler h);
  let constraint := default default_constraint (currentConstraint ch) in
  let sourceConstraint := if src then constraint else sourceConstraint in
  let targetConstraint := if src then targetConstraint
                          else if tgt then constraint else targetConstraint in
  let edge :=
    if negb src || bool_decide (sourceState <> None)
    then updateFixedTerminalPoint E edge sourceState true sourceConstraint else edge in
  let edge :=
    if negb tgt || bool_decide (targetState <> None)
    then updateFixedTerminalPoint E edge targetState false targetConstraint else edge in
  do edge <-
    (if (src || tgt) && bool_decide (terminalState = None) then
       let edge := setAbsoluteTerminalPoint edge point src in
       do m <- deref (marker h);
       when_ (bool_decide (markedState m = None))
             (se_modify (set_ses (ses_error (if allowDanglingEdges E then None else Some ""))))
       ;; se_ret edge
     else se_ret edge);
  do h <- se_get;
  let edge := updatePoints E edge (points (ses h)) sourceState targetState in
  se_ret (updateFloatingTerminalPoints E edge sourceState targetState).

(** *** Drawing *)

Definition handle_box (cx cy w hgt : Q) : mxRectangle :=
  MkRect (Math_round (cx - w / 2)) (Math_round (cy - hgt / 2)) w hgt.

Definition setPreviewColor (c : color) : H unit :=
  se_modify (set_hnd (fun x => match shape x with
                               | Some _ => hnd_shape (Some c) x
                               | None => x
                               end)).

Definition drawPreview : H unit :=
  do h <- se_get;
  if isLabel (ses h) then
    let s := LABEL_HANDLE_SIZE E in
    do l <- deref (label (hnd h));
    do ls <- deref (labelShape (hnd h));
    se_modify (set_hnd (hnd_labelShape (Some (shape_set_bounds (handle_box (px l) (py l) s s) ls))))
  else
    (* this.shape.points = this.abspoints; this.shape.redraw() *)
    do _s <- deref (shape (hnd h));
    se_ret tt.

(** One handle of [redrawHandles] and [redrawInnerBends]: the bend at
    [i] is centred on the point [p]. *)
Definition place_bend (i : Z) (p : mxPoint) (show : bool) : H unit :=
  do h <- se_get;
  do bs <- deref (bends (hnd h));
  do b <- deref (js_array_get bs i);
  let b := if show then shape_set_hidden false b else b in
  let b := shape_set_bounds
             (handle_box (px p) (py p) (rwidth (bounds b)) (rheight (bounds b))) b in
  se_modify (set_hnd (hnd_bends (Some (js_array_set bs i b)))).

Definition redrawInnerBends : H unit :=
  do h <- se_get;
  do bs <- deref (bends (hnd h));
  for_range 1 (Z.of_nat (length bs) - 1) (fun i =>
    do h <- se_get;
    do bs <- deref (bends (hnd h));
    match js_array_get bs i with
    | Some _ =>
      do a <- deref (abspoints (hnd h));
      match js_array_get a i with
      | Some p => place_bend i p true
      | None => se_modify (set_hnd (hnd_bends (Some (js_array_put bs i None))))
      end
    | None => se_ret tt
    end).

Definition redrawHandles : H unit :=
  do h <- se_get;
  let c := es_cell (state h) in
  let s := LABEL_HANDLE_SIZE E in
  let l := absoluteOffset (state h) in
  se_modify (set_hnd (hnd_label (Some l))) ;;
  do ls <- deref (labelShape (hnd h));
  let ls := shape_set_bounds (handle_box (px l) (py l) s s) ls in
  let ls := shape_set_hidden (negb (hasLabel E c && isLabelMovable E (Some c))) ls in
  se_modify (set_hnd (hnd_labelShape (Some ls))) ;;
  match bends (hnd h) with
  | Some (b0 :: bs') =>
    let bs := b0 :: bs' in
    do a <- deref (abspoints (hnd h));
    let n := (Z.of_nat (length a) - 1)%Z in
    do p0 <- deref (js_array_get a 0);
    place_bend 0 p0 false ;;
    do pe <- deref (js_array_get a n);
    place_bend (Z.of_nat (length bs) - 1) pe false ;;
    redrawInnerBends
  | _ => se_ret tt
  end.

Definition redraw (mdl : gmap cell mxCell) : H unit :=
  do h <- se_get;
  do ap <- deref (absolutePoints (state h));
  se_modify (set_hnd (hnd_abspoints (Some ap))) ;;
  redrawHandles ;;
  do g <- deref (getGeometry mdl (es_cell (state h)));
  do h <- se_get;
  match bends (hnd h), gpoints g with
  | Some (b0 :: bs'), Some pts =>
    let bs := b0 :: bs' in
    when_ (bool_decide (points (ses h) = None)) (se_modify (set_ses (ses_points (Some [])))) ;;
    for_range 1 (Z.of_nat (length bs) - 1) (fun i =>
      do h <- se_get;
      do a <- deref (abspoints (hnd h));
      do ps <- deref (points (ses h));
      match js_array_get bs i, js_array_get a i with
      | Some _, Some _ =>
        se_modify (set_ses (ses_points (Some (js_array_put ps (i - 1) (js_array_get pts (i - 1))))))
      | _, _ => se_ret tt
      end)
  | _, _ => se_ret tt
  end ;;
  drawPreview.

(** *** reset, destroy, init, start *)

Definition reset (mdl : gmap cell mxCell) : H unit :=
  se_modify (set_ses ses_reset) ;;
  se_modify (set_hnd (hnd_label None)) ;;
  do h <- se_get;
  do m <- deref (marker h);
  se_modify (set_marker (Some (marker_reset m))) ;;
  do ch <- deref (constraintHandler h);
  se_modify (set_constraintHandler (Some (constraint_reset ch))) ;;
  setPreviewColor SelectionColor ;;
  redraw mdl.

Definition destroy (h : mxEdgeHandler) : mxEdgeHandler :=
  MkHandler (cfg h) (state h) None None (ses h)
    (MkHandles None None None (label (hnd h)) (abspoints (hnd h)) (preferHtml (hnd h))).

(** [createHandleShape]: an image shape of the size of [handleImage]
    when there is one, else a square of [HANDLE_SIZE], one unit smaller
    under [preferHtml]. *)
Definition createHandleShape (h : mxEdgeHandler) (i : Z) : mxShape :=
  match handleImage (cfg h) with
  | Some img => MkShape (nodeOf E i) false false (MkRect 0 0 (img_width img) (img_height img))
  | None =>
    let s := HANDLE_SIZE E in
    let s := if preferHtml (hnd h) then num_sub s 1 else s in
    MkShape (nodeOf E i) false false (MkRect 0 0 s s)
  end.

(** The loop of [createBends] over the indices [idxs] of the absolute
    points, [bends] being the handles made so far: an inner handle is
    hidden and pushes a point onto [this.points]. *)
Fixpoint createBends_loop (c : cell) (len : nat) (idxs : list Z) (bends : jsarray mxShape)
  : H (jsarray mxShape) :=
  match idxs with
  | [] => se_ret bends
  | i :: rest =>
    let terminal := (i =? 0)%Z || (i =? Z.of_nat len - 1)%Z in
    if terminal || isCellBendable E c then
      do h <- se_get;
      let bend := createHandleShape h i in
      if terminal then createBends_loop c len rest (bends ++ [Some bend])
      else
        do ps <- deref (points (ses h));
        se_modify (set_ses (ses_points (Some (ps ++ [Some (MkPoint 0 0)])))) ;;
        createBends_loop c len rest (bends ++ [Some (shape_set_hidden true bend)])
    else createBends_loop c len rest bends
  end.

Definition createBends : H (jsarray mxShape) :=
  do h <- se_get;
  do a <- deref (abspoints (hnd h));
  createBends_loop (es_cell (state h)) (length a) (seqZ 0 (Z.of_nat (length a))) [].

(** [state.text != null && state.text.node.parentNode == graph.container] *)
Definition textInContainer (t : option mxShape) : bool :=
  match t with
  | Some sh => inContainer E (node sh)
  | None => false
  end.

(** The value [init] gives [preferHtml]: the label of the edge, else of
    its visible source, else of its visible target is drawn in the
    container. *)
Definition init_preferHtml (st : mxEdgeState) : bool :=
  let p := textInContainer (text st) in
  if negb p then
    let p := match getVisibleTerminalState st true with
             | Some sourceState => textInContainer (cs_text E sourceState)
             | None => p
             end in
    if negb p then
      match getVisibleTerminalState st false with
      | Some targetState => textInContainer (cs_text E targetState)
      | None => p
      end
    else p
  else p.

Definition init (mdl : gmap cell mxCell) : H unit :=
  se_modify (set_marker (Some (MkMarker None None))) ;;
  se_modify (set_constraintHandler (Some (MkConstraintHandler None None))) ;;
  se_modify (set_ses (ses_points (Some []))) ;;
  do h <- se_get;
  se_modify (set_hnd (hnd_abspoints (absolutePoints (state h)))) ;;
  se_modify (set_hnd (hnd_shape (Some SelectionColor))) ;;
  se_modify (set_hnd (hnd_preferHtml (init_preferHtml (state h)))) ;;
  when_ (createsBends E)
        (do bs <- createBends; se_modify (set_hnd (hnd_bends (Some bs)))) ;;
  se_modify (set_hnd (hnd_label (Some (absoluteOffset (state h))))) ;;
  se_modify (set_hnd (hnd_labelShape
               (Some (MkShape (nodeOf E (LABEL_HANDLE E)) false false (MkRect 0 0 0 0))))) ;;
  redraw mdl.

Definition start (mdl : gmap cell mxCell) (x y : Q) (idx : Z) : H unit :=
  do h <- se_get;
  let src := match bends (hnd h) with
             | None => false
             | Some _ => (idx =? 0)%Z
             end in
  let tgt := match bends (hnd h) with
             | None => false
             | Some bs => (idx =? Z.of_nat (length bs) - 1)%Z
             end in
  let lbl := (idx =? LABEL_HANDLE E)%Z in
  se_modify (set_ses (ses_start x y src tgt lbl)) ;;
  if src || tgt then
    let c := es_cell (state h) in
    match getTerminal mdl c src with
    | None => when_ (isTerminalPointMovable E c src) (se_modify (set_ses (ses_index (Some idx))))
    | Some t => when_ (isCellDisconnectable E c t src) (se_modify (set_ses (ses_index (Some idx))))
    end
  else se_modify (set_ses (ses_index (Some idx))).

(** *** mouseMove *)

Definition mouseMove (mdl : gmap cell mxCell) (me : mxMouseEvent) : H unit :=
  do h <- se_get;
  match index (ses h), marker h with
  | Some _, Some _ =>
    let point := getPointForEvent h me in
    (if isLabel (ses h) then
       do _l <- deref (label (hnd h));
       se_modify (set_hnd (hnd_label (Some (MkPoint (px point) (py point)))))
     else
       do pp <- getPreviewPoints mdl point;
       let '(pts, point) := pp in
       se_modify (set_ses (ses_points pts)) ;;
       do terminalState <-
         (if isSource (ses h) || isTarget (ses h)
          then getPreviewTerminalState mdl me else se_ret None);
       let clone := state h in
       do clone <- updatePreviewState clone point terminalState;
       do h <- se_get;
       do _m <- deref (marker h);
       setPreviewColor (if bool_decide (error (ses h) = None) then ValidColor else InvalidColor) ;;
       se_modify (set_hnd (hnd_abspoints (absolutePoints clone))) ;;
       se_modify (set_ses (ses_active true))) ;;
    drawPreview
  | _, _ =>
    (* the IE workaround only consumes the event *)
    se_ret tt
  end.

(** *** The model layer *)

Definition cell_set_geometry (g : option mxGeometry) (x : mxCell) : mxCell :=
  MkCell g (parent x) (source x) (target x) (children x).

Definition cell_set_parent (p : option cell) (x : mxCell) : mxCell :=
  MkCell (geometry x) p (source x) (target x) (children x).

Definition cell_set_terminal (t : option cell) (isSource : bool) (x : mxCell) : mxCell :=
  if isSource then MkCell (geometry x) (parent x) t (target x) (children x)
  else MkCell (geometry x) (parent x) (source x) t (children x).

Definition cell_insert_child (child : cell) (idx : nat) (x : mxCell) : mxCell :=
  MkCell (geometry x) (parent x) (source x) (target x)
    (take idx (children x) ++ child :: drop idx (children x)).

(** Modelled from the spec: what a call does to the cells (section 6; the
    model and the graph are not part of this file).  [clone] is a detached
    value copy carrying the geometry; [add] puts the child under the
    parent at the index; [connectCell] sets the terminal of the given end;
    [setGeometry] replaces the geometry. *)
Definition perform (c : Call) (mdl : gmap cell mxCell) : gmap cell mxCell :=
  match c with
  | CloneCell original clone =>
    match mdl !! original with
    | Some x => <[clone := MkCell (geometry x) None None None []]> mdl
    | None => mdl
    end
  | ModelAdd (Some p) child idx =>
    if bool_decide (child = p) then mdl
    else alter (cell_insert_child child idx) p (alter (cell_set_parent (Some p)) child mdl)
  | ConnectCell edge terminal isSource _ => alter (cell_set_terminal terminal isSource) edge mdl
  | SetGeometry x g => alter (cell_set_geometry (Some g)) x mdl
  | _ => mdl
  end.

(** Modelled from the spec: the nestable transaction bracket counts its
    depth. *)
Definition level_after (c : Call) (l : nat) : nat :=
  match c with
  | BeginUpdate => S l
  | EndUpdate => pred l
  | _ => l
  end.

(** A call to a collaborator: it is recorded; it either throws, leaving
    the cells as they were, or takes effect.  Once no transaction is open
    any more the model notifies its listeners, and the application may
    then tear this handler down (the "recreated" of [mouseUp]). *)
Definition call (c : Call) : M unit :=
  fun w =>
    let w := log c w in
    if throws E c (model w) then (Throw (ModelFailure c), w)
    else
      let l := level_after c (updateLevel w) in
      (Normal tt,
       MkWorld (if bool_decide (l = 0%nat) && refreshes E c then destroy (this w) else this w)
               (perform c (model w)) l (trace w)).

Definition entered (op : CommitOp) : M unit := se_modify (log (Invoked op)).

(** Handler-local code run against the current model. *)
Definition liftH {A} (f : gmap cell mxCell -> H A) : M A :=
  fun w => let '(r, h) := f (model w) (this w) in (r, set_this h w).

(** [edge.clone()]: a new cell identity. *)
Definition cell_clone (edge : cell) : M cell :=
  do w <- se_get;
  let c := fresh (dom (model w)) in
  call (CloneCell edge c) ;;
  se_ret c.

(** *** Commit operations *)

Definition moveLabel (edgeState : mxEdgeState) (x y : Q) : M unit :=
  entered OpMoveLabel ;;
  do w <- se_get;
  match getGeometry (model w) (es_cell edgeState) with
  | Some g =>
    let pt := getRelativePoint E edgeState x y in
    let g := geo_set_xy g (px pt) (py pt) in
    let g := geo_set_offset g (Some (MkPoint 0 0)) in
    let pt := getPoint E edgeState g in
    let g := geo_set_offset g
               (Some (MkPoint (num_div (num_sub x (px pt)) (scale E))
                              (num_div (num_sub y (py pt)) (scale E)))) in
    call (SetGeometry (es_cell edgeState) g)
  | None => se_ret tt
  end.

(** The [try] block of [connect]. *)
Definition connect_try (p : option cell) (edge terminal : cell) (isSource isClone : bool)
  : M cell :=
  do edge <-
    (if isClone then
       do clone <- cell_clone edge;
       do w <- se_get;
       call (ModelAdd p clone (getChildCount (model w) p)) ;;
       do w <- se_get;
       let other := getTerminal (model w) edge (negb isSource) in
       call (ConnectCell clone other (negb isSource) None) ;;
       se_ret clone
     else se_ret edge);
  do w <- se_get;
  do ch <- deref (constraintHandler (this w));
  let constraint := default default_constraint (currentConstraint ch) in
  call (ConnectCell edge (Some terminal) isSource (Some constraint)) ;;
  se_ret edge.

Definition connect (edge terminal : cell) (isSource isClone : bool) : M cell :=
  entered OpConnect ;;
  do w <- se_get;
  let p := getParent (model w) edge in
  call BeginUpdate ;;
  try_finally (connect_try p edge terminal isSource isClone) (call EndUpdate).

(** The [try] block of [changeTerminalPoint]. *)
Definition changeTerminalPoint_try (edge : cell) (geo : mxGeometry) (point : mxPoint)
    (isSource : bool) : M unit :=
  let geo := setTerminalPoint geo point isSource in
  call (SetGeometry edge geo) ;;
  call (ConnectCell edge None isSource (Some default_constraint)).

Definition changeTerminalPoint (edge : cell) (point : mxPoint) (isSource : bool) : M unit :=
  entered OpChangeTerminalPoint ;;
  do w <- se_get;
  match getGeometry (model w) edge with
  | Some geo =>
    call BeginUpdate ;;
    try_finally (changeTerminalPoint_try edge geo point isSource) (call EndUpdate)
  | None => se_ret tt
  end.

Definition changePoints (edge : cell) (pts : option (jsarray mxPoint)) : M unit :=
  entered OpChangePoints ;;
  do w <- se_get;
  match getGeometry (model w) edge with
  | Some geo => call (SetGeometry edge (geo_set_points geo pts))
  | None => se_ret tt
  end.

Definition addPointAt (st : mxEdgeState) (x y : Q) : M unit :=
  entered OpAddPointAt ;;
  do w <- se_get;
  let pt := MkPoint x y in
  match getGeometry (model w) (es_cell st) with
  | Some geo =>
    let t := translate E in
    let s := scale E in
    let idx := findNearestSegment E st ((px pt + px t) * s) ((py pt + py t) * s) in
    let geo :=
      match gpoints geo with
      | None => geo_set_points geo (Some [Some pt])
      | Some ps => geo_set_points geo (Some (js_splice_insert ps idx pt))
      end in
    call (SetGeometry (es_cell st) geo) ;;
    se_modify (fun w => set_this (destroy (this w)) w) ;;
    liftH init
  | None => se_ret tt
  end.

Definition addPoint (st : mxEdgeState) (evt : mxMouseEvent) : M unit :=
  do w <- se_get;
  let pt := utils_convertPoint E evt in
  let gridEnabled := isGridEnabledEvent E evt in
  let pt := convertPoint (model w) (this w) pt gridEnabled in
  addPointAt st (px pt) (py pt).

Definition removePoint (st : mxEdgeState) (idx : Z) : M unit :=
  entered OpRemovePoint ;;
  do w <- se_get;
  if (0 <? idx)%Z then
    do a <- deref (abspoints (hnd (this w)));
    if (idx <? Z.of_nat (length a) - 1)%Z then
      match getGeometry (model w) (es_cell (state (this w))) with
      | Some geo =>
        match gpoints geo with
        | Some ps =>
          let geo := geo_set_points geo (Some (js_splice_remove ps (idx - 1))) in
          call (SetGeometry (es_cell st) geo) ;;
          se_modify (fun w => set_this (destroy (this w)) w) ;;
          liftH init
        | None => se_ret tt
        end
      | None => se_ret tt
      end
    else se_ret tt
  else se_ret tt.

(** *** mouseDown and mouseUp *)

Definition mouseDown (me : mxMouseEvent) : M unit :=
  do w <- se_get;
  let h := this w in
  let handle := getHandleForEvent h me in
  match handle with
  | None =>
    when_ (addEnabled (cfg h) && isShiftDown me) (addPoint (state h) me)
  | Some hd =>
    when_ (negb (isConsumed me) && isEnabled E)
      (if removeEnabled (cfg h) && isShiftDown me then removePoint (state h) hd
       else
         when_ (negb (hd =? LABEL_HANDLE E)%Z || isLabelMovable E (me_cell me))
               (liftH (fun mdl => start mdl (getX me) (getY me) hd)))
  end.

(** The pointer has left the anchor: [me.getX() != this.startX ||
    me.getY() != this.startY]. *)
Definition moved (h : mxEdgeHandler) (me : mxMouseEvent) : bool :=
  negb (Qeq_bool (getX me) (startX (ses h))) || negb (Qeq_bool (getY me) (startY (ses h))).

(** The dangling branch of [mouseUp]: the last previewed terminal point,
    converted in place to model coordinates. *)
Definition danglingPoint (edge : cell) : M mxPoint :=
  do w <- se_get;
  let h := this w in
  do a <- deref (abspoints (hnd h));
  let k := if isSource (ses h) then 0%Z else (Z.of_nat (length a) - 1)%Z in
  do pt <- deref (js_array_get a k);
  let pt := MkPoint (px pt / scale E - px (translate E)) (py pt / scale E - py (translate E)) in
  let pt :=
    match getState (getParent (model w) edge) with
    | Some pstate => MkPoint (px pt - px (cs_origin pstate)) (py pt - py (cs_origin pstate))
    | None => pt
    end in
  let pt := MkPoint (px pt - panDx E / scale E) (py pt - panDy E / scale E) in
  se_modify (fun w => set_this (set_hnd (hnd_abspoints (Some (js_array_set a k pt))) (this w)) w) ;;
  se_ret pt.

Definition mouseUp (me : mxMouseEvent) : M unit :=
  do w <- se_get;
  let h := this w in
  match index (ses h), marker h with
  | Some _, Some m =>
    let edge := es_cell (state h) in
    do edge <-
      (if moved h me then
         match error (ses h) with
         | Some e =>
           when_ (0 <? String.length e)%nat (call (ValidationAlert e)) ;;
           se_ret edge
         | None =>
           if isLabel (ses h) then
             do l <- deref (label (hnd h));
             moveLabel (state h) (px l) (py l) ;;
             se_ret edge
           else if isSource (ses h) || isTarget (ses h) then
             do ch <- deref (constraintHandler h);
             let terminal :=
               match currentConstraint ch, currentFocus ch with
               | Some _, Some f => Some (cs_cell f)
               | _, _ => None
               end in
             let terminal :=
               match terminal with
               | None => cs_cell <$> validState m
               | Some t => Some t
               end in
             match terminal with
             | Some t =>
               connect edge t (isSource (ses h))
                 (isCloneEvent E me && cloneEnabled (cfg h) && isCellsCloneable E)
             | None =>
               if allowDanglingEdges E then
                 do pt <- danglingPoint edge;
                 changeTerminalPoint edge pt (isSource (ses h)) ;;
                 se_ret edge
               else se_ret edge
             end
           else if active (ses h) then
             changePoints edge (points (ses h)) ;;
             se_ret edge
           else
             call (Invalidate (es_cell (state h))) ;;
             call (Revalidate (es_cell (state h))) ;;
             se_ret edge
         end
       else se_ret edge);
    do w <- se_get;
    match marker (this w) with
    | Some _ =>
      liftH reset ;;
      do w <- se_get;
      when_ (negb (bool_decide (edge = es_cell (state (this w)))))
            (call (SetSelectionCell edge))
    | None => se_ret tt
    end
  | _, _ => se_ret tt
  end.

End Handler.

(** * Notions used to state the properties *)

(** ** Frames *)

(** Every run of [m] relates the state before to the state after by [R],
    whether it returns or throws. *)
Definition stable {S A} (R : S -> S -> Prop) (m : SE S A) : Prop :=
  forall s, R s (m s).2.

(** The handler still handles the same edge state with the same switches. *)
Definition same_edge (h h' : mxEdgeHandler) : Prop :=
  state h' = state h /\ cfg h' = cfg h.

(** The cells of the model are as they were. *)
Definition same_model (w w' : World) : Prop := model w' = model w.

(** ** Hit testing *)

(** The bends with their handle index, in the order of the loop. *)
Fixpoint indexed_from (i : Z) (bs : jsarray mxShape) : list (Z * option mxShape) :=
  match bs with
  | [] => []
  | b :: bs' => (i, b) :: indexed_from (i + 1) bs'
  end.

(** The handles that pass the guard of [checkShape], each with the
    squared distance of its centre to the pointer, in the order given. *)
Definition qualifying (E : Env) (hit : option mxRectangle) (me : mxMouseEvent)
    (l : list (Z * option mxShape)) : list (Z * Q) :=
  omap (fun c => match c.2 with
                 | Some sh => if shape_hit E hit me c.2 then Some (c.1, distSq me sh) else None
                 | None => None
                 end) l.

(** [r] is a candidate of minimal distance and the last one among equals;
    none when there is no candidate. *)
Definition closest_last (cands : list (Z * Q)) (r : option Z) : Prop :=
  match r with
  | None => cands = []
  | Some i =>
    exists pre d post,
      cands = pre ++ (i, d) :: post /\
      Forall (fun c => (d <= c.2)%Q) pre /\
      Forall (fun c => (d < c.2)%Q) post
  end.

Definition bend_handles (h : mxEdgeHandler) : list (Z * option mxShape) :=
  indexed_from 0 (default [] (bends (hnd h))).

(** The label handle first, then the bends in index order. *)
Definition checked_handles (E : Env) (h : mxEdgeHandler) : list (Z * option mxShape) :=
  (LABEL_HANDLE E, labelShape (hnd h)) :: bend_handles h.

(** ** Snapping *)








(** ** Transactions *)

Definition bracket_free (t : list Call) : Prop := Forall (fun c => is_bracket c = false) t.

(** A [beginUpdate], calls that are not brackets, and an [endUpdate]. *)
Definition bracketed (t : list Call) : Prop :=
  exists mid, t = BeginUpdate :: mid ++ [EndUpdate] /\ bracket_free mid.

(** Every mutation of the record happens at a transaction depth above 0. *)
Fixpoint mutations_bracketed (depth : nat) (t : list Call) : bool :=
  match t with
  | [] => true
  | BeginUpdate :: t' => mutations_bracketed (S depth) t'
  | EndUpdate :: t' => mutations_bracketed (pred depth) t'
  | c :: t' => (negb (is_mutation c) || (0 <? depth)%nat) && mutations_bracketed depth t'
  end.

(** The record grows by calls that are not brackets. *)
Definition grows_bracket_free (w w' : World) : Prop :=
  exists ext, trace w' = trace w ++ ext /\ bracket_free ext.

(** * Concrete graphs and gestures *)

(** [mxUtils.intersects] as the library defines it. *)
Definition rect_intersects (a b : mxRectangle) : bool :=
  let tw := rwidth a in
  let th := rheight a in
  let rw := rwidth b in
  let rh := rheight b in
  if Qle_bool rw 0 || Qle_bool rh 0 || Qle_bool tw 0 || Qle_bool th 0 then false
  else
    let tx := rx a in
    let ty := ry a in
    let bx := rx b in
    let by' := ry b in
    let rw := (rw + bx)%Q in
    let rh := (rh + by')%Q in
    let tw := (tw + tx)%Q in
    let th := (th + ty)%Q in
    (Qlt_bool rw bx || Qlt_bool tx rw) && (Qlt_bool rh by' || Qlt_bool ty rh) &&
    (Qlt_bool tw tx || Qlt_bool bx tw) && (Qlt_bool th ty || Qlt_bool by' th).

(** A graph at scale 1 with a grid of 10: cell 1 is the layer, 2 and 3 are
    the terminals of the edge 4, and 5 is a further vertex.  The
    parameters are the policy for dangling edges, the cell the marker
    finds under the pointer, what the constraint handler does on update,
    the calls that fail, and whether the grid applies. *)
Definition env_of (dangling : bool) (under : option cell)
    (upd : mxConstraintHandler -> mxConstraintHandler) (fails : Call -> bool)
    (grid : bool) : Env :=
  {| IS_IE := false;
     LABEL_HANDLE := (-1)%Z;
     LABEL_HANDLE_SIZE := 4;
     HANDLE_SIZE := 7;
     intersects := rect_intersects;
     findNearestSegment := fun _ _ _ => 0%Z;
     utils_convertPoint := fun me => MkPoint (getX me) (getY me);
     gridSize := 10;
     snap := fun v => (Math_round (v / 10) * 10)%Q;
     isGridEnabledEvent := fun _ => grid;
     isCloneEvent := fun _ => true;
     isCellsCloneable := true;
     allowDanglingEdges := dangling;
     resetEdgesOnConnect := false;
     connectableEdges := false;
     isEnabled := true;
     createsBends := true;
     isLabelMovable := fun _ => true;
     hasLabel := fun _ => true;
     isCellBendable := fun _ => true;
     isTerminalPointMovable := fun _ _ => true;
     isCellDisconnectable := fun _ _ _ => true;
     isSwimlane := fun _ => false;
     hitsSwimlaneContent := fun _ _ _ => false;
     isEdge := fun c => bool_decide (c = 4%positive);
     isAncestor := fun _ _ => false;
     getCellAt := fun _ _ => None;
     panDx := 0;
     panDy := 0;
     getEdgeValidationError := fun _ _ _ => None;
     getConnectionConstraint := fun _ _ _ => default_constraint;
     scale := 1;
     translate := MkPoint 0 0;
     view_getState := fun c => match c with
                               | Some x => Some (MkState x (MkPoint 0 0))
                               | None => None
                               end;
     getRoutingCenterX := fun st => if bool_decide (cs_cell st = 2%positive) then 8%Q else 12%Q;
     getRoutingCenterY := fun st => if bool_decide (cs_cell st = 2%positive) then 50%Q else 70%Q;
     getRelativePoint := fun _ x y => MkPoint x y;
     getPoint := fun _ g => MkPoint (gx g) (gy g);
     getTerminalPort := fun _ _ _ => None;
     updateFixedTerminalPoint := fun e _ _ _ => e;
     updatePoints := fun e _ _ _ => e;
     updateFloatingTerminalPoints := fun e _ _ => e;
     marker_baseGetCell := fun _ => under;
     constraint_update := fun _ _ ch => upd ch;
     nodeOf := fun i => Z.to_nat (i + 1);
     inContainer := fun _ => false;
     cs_text := fun _ => None;
     throws := fun c _ => fails c;
     refreshes := fun _ => false |}.

Definition env0 : Env := env_of false None id (fun _ => false) false.

Definition geometry0 : mxGeometry :=
  MkGeometry 0 0 None (Some [Some (MkPoint 10 10); Some (MkPoint 20 10)]) None None.

Definition vertex0 : mxCell :=
  MkCell (Some (MkGeometry 0 0 None None None None)) (Some 1%positive) None None [].

(** The edge 4 runs from 2 to 3 through two waypoints. *)
Definition model0 : gmap cell mxCell :=
  <[1%positive := MkCell None None None None [2; 3; 4; 5]%positive]>
  (<[2%positive := vertex0]>
  (<[3%positive := vertex0]>
  (<[4%positive := MkCell (Some geometry0) (Some 1%positive) (Some 2%positive) (Some 3%positive) []]>
  (<[5%positive := vertex0]> ∅)))).

(** The same graph with an edge that has no geometry. *)
Definition model_nogeo : gmap cell mxCell :=
  <[4%positive := MkCell None (Some 1%positive) (Some 2%positive) (Some 3%positive) []]> model0.

Definition state0 : mxEdgeState :=
  MkEdgeState 4%positive
    (Some [Some (MkPoint 0 10); Some (MkPoint 10 10); Some (MkPoint 20 10); Some (MkPoint 30 10)])
    (MkPoint 15 10)
    (Some (MkState 2%positive (MkPoint 0 0)))
    (Some (MkState 3%positive (MkPoint 0 0)))
    (Some (MkShape 100 false false (MkRect 11 6 8 8))).

Definition cfg0 : Config := MkConfig true true true true true 0 None.

Definition handle0 (n : nat) (x y : Q) : option mxShape :=
  Some (MkShape n false false (MkRect x y 7 7)).

Definition handles0 : Handles :=
  MkHandles (Some SelectionColor)
    (Some [handle0 1 (-3) 7; handle0 2 7 7; handle0 3 17 7; handle0 4 27 7])
    (Some (MkShape 0 false false (MkRect 13 8 4 4)))
    (Some (MkPoint 15 10))
    (absolutePoints state0) false.

(** A handler in the middle of a gesture that was anchored at (5, 5). *)
Definition handler_of (idx : option Z) (src tgt lbl act : bool) (err : option string)
    (pts : option (jsarray mxPoint)) (mk : mxCellMarker) (ch : mxConstraintHandler)
  : mxEdgeHandler :=
  MkHandler cfg0 state0 (Some mk) (Some ch)
    (MkSession 5 5 idx src tgt lbl act err pts) handles0.

Definition idle_marker : mxCellMarker := MkMarker None None.
Definition idle_constraints : mxConstraintHandler := MkConstraintHandler None None.

(** An armed drag of the waypoint handle 1. *)
Definition waypoint_drag : mxEdgeHandler :=
  handler_of (Some 1%Z) false false false false None (gpoints geometry0)
    idle_marker idle_constraints.

(** An armed drag of the source handle. *)
Definition source_drag : mxEdgeHandler :=
  handler_of (Some 0%Z) true false false false None (gpoints geometry0)
    idle_marker idle_constraints.

Definition world_of (h : mxEdgeHandler) (mdl : gmap cell mxCell) : World :=
  MkWorld h mdl 0 [].

(** A mouse event at the given screen and graph position whose source is
    the DOM node [src]. *)
Definition event_at (x y : Q) (src : nat) : mxMouseEvent :=
  MkEvent x y x y true false false (Some 4%positive) (fun n => Nat.eqb n src).

(** A drag by a handler that has no absolute points. *)
Definition floating_drag : mxEdgeHandler :=
  MkHandler cfg0 state0 (Some idle_marker) (Some idle_constraints)
    (MkSession 5 5 (Some 1%Z) false false false false None None)
    (MkHandles (Some SelectionColor) None None None None false).

(** The marker finds the vertex 5 under the pointer while the constraint
    handler keeps its focus on the terminal 3. *)
Definition env_focus : Env :=
  env_of false (Some 5%positive)
    (fun _ => MkConstraintHandler (Some (MkState 3%positive (MkPoint 0 0)))
                                  (Some default_constraint))
    (fun _ => false) false.

(** A label handle centred on (15, 10) and a bend handle centred on
    (19.5, 10) that overlaps it; the label text lies over both. *)
Definition label_text_handler : mxEdgeHandler :=
  MkHandler cfg0 state0 (Some idle_marker) (Some idle_constraints)
    (MkSession 0 0 None false false false false None None)
    (MkHandles (Some SelectionColor)
       (Some [Some (MkShape 1 false false (MkRect 16 (13 # 2) 7 7))])
       (Some (MkShape 0 false false (MkRect 13 8 4 4)))
       (Some (MkPoint 15 10))
       (absolutePoints state0) false).

(** The handler as [init] leaves it, before any gesture. *)
Definition idle_handler : mxEdgeHandler :=
  set_ses ses_reset (init env0 model0 (destroy waypoint_drag)).2.

(** The marker finds the vertex 5 under the pointer. *)
Definition env_over_vertex : Env := env_of false (Some 5%positive) id (fun _ => false) false.

(** Every [connectCell] fails. *)
Definition env_failing : Env :=
  env_of false (Some 5%positive) id
    (fun c => match c with ConnectCell _ _ _ _ => true | _ => false end) false.

(** Pointer-down, one move and pointer-up. *)
Definition gesture (E : Env) (down move up : mxMouseEvent) (h : mxEdgeHandler)
    (mdl : gmap cell mxCell) : outcome unit * World :=
  (mouseDown E down ;; liftH (fun m => mouseMove E m move) ;; mouseUp E up) (world_of h mdl).

(** Dangling edges are allowed and nothing is under the pointer. *)
Definition env_dangling : Env := env_of true None id (fun _ => false) false.

(** A drag of the source handle away from the anchor, with cloning
    switched off: the marker holds the terminal 3 as its valid state while
    the constraint handler has its focus on the vertex 5. *)
Definition focus_drag : mxEdgeHandler :=
  MkHandler (MkConfig false true true true true 0 None) state0
    (Some (MkMarker (Some (MkState 3%positive (MkPoint 0 0)))
                    (Some (MkState 3%positive (MkPoint 0 0)))))
    (Some (MkConstraintHandler (Some (MkState 5%positive (MkPoint 0 0)))
                               (Some default_constraint)))
    (MkSession 5 5 (Some 0%Z) true false false true None (gpoints geometry0)) handles0.

(** A drag of the source handle that the validation has rejected. *)
Definition rejected_drag : mxEdgeHandler :=
  handler_of (Some 0%Z) true false false true (Some "not allowed") (gpoints geometry0)
    idle_marker idle_constraints.

(** A drag of the label handle that has moved the label to (25, 30). *)
Definition label_drag : mxEdgeHandler :=
  MkHandler cfg0 state0 (Some idle_marker) (Some idle_constraints)
    (MkSession 5 5 (Some (-1)%Z) false false true false None (gpoints geometry0))
    (MkHandles (Some SelectionColor) (bends handles0) (labelShape handles0)
       (Some (MkPoint 25 30)) (abspoints handles0) false).

(** The same graph with an edge whose geometry has no list of waypoints. *)
Definition model_nopoints : gmap cell mxCell :=
  <[4%positive := MkCell (Some (MkGeometry 0 0 None None None None)) (Some 1%positive)
                    (Some 2%positive) (Some 3%positive) []]> model0.

(** * Further code of the handler *)

Inductive fillcolor := HANDLE_FILLCOLOR | LOCKED_HANDLE_FILLCOLOR | CONNECT_HANDLE_FILLCOLOR.

(** [getHandleFillColor]: the colour of the handle at [index]. *)
Definition getHandleFillColor (E : Env) (mdl : gmap cell mxCell) (h : mxEdgeHandler)
    (idx : Z) : fillcolor :=
  let isSource := (idx =? 0)%Z in
  let c := es_cell (state h) in
  let terminal := getTerminal mdl c isSource in
  if match terminal with
     | Some t => negb (isCellDisconnectable E c t isSource)
     | None => negb (isTerminalPointMovable E c isSource)
     end
  then LOCKED_HANDLE_FILLCOLOR
  else
    match terminal with
    | Some t => if isCellDisconnectable E c t isSource
                then CONNECT_HANDLE_FILLCOLOR else HANDLE_FILLCOLOR
    | None => HANDLE_FILLCOLOR
    end.

(** ** Notions for the further properties *)

(** A computation of the handler that can only fail by reading a property
    of null. *)
Definition throws_TypeError_only {S A} (m : SE S A) : Prop :=
  forall s e, (m s).1 = Throw e -> e = TypeError.

(** The preview fields are as they were: the absolute points, the label
    position and the preview shape. *)
Definition same_preview (h h' : mxEdgeHandler) : Prop :=
  abspoints (hnd h') = abspoints (hnd h) /\ label (hnd h') = label (hnd h) /\
  shape (hnd h') = shape (hnd h).

(** The gesture fields other than the previewed points are as they were. *)
Definition same_gesture (h h' : mxEdgeHandler) : Prop :=
  index (ses h') = index (ses h) /\ error (ses h') = error (ses h) /\
  isSource (ses h') = isSource (ses h) /\ isTarget (ses h') = isTarget (ses h) /\
  isLabel (ses h') = isLabel (ses h) /\ active (ses h') = active (ses h).

(** The two handlers agree on everything but their bends and their label
    shape. *)
Definition same_but_handles (h1 h2 : mxEdgeHandler) : Prop :=
  cfg h1 = cfg h2 /\ state h1 = state h2 /\ marker h1 = marker h2 /\
  constraintHandler h1 = constraintHandler h2 /\ ses h1 = ses h2 /\
  shape (hnd h1) = shape (hnd h2) /\ label (hnd h1) = label (hnd h2) /\
  abspoints (hnd h1) = abspoints (hnd h2) /\ preferHtml (hnd h1) = preferHtml (hnd h2).

(** The gesture state of the handler is as it was. *)
Definition same_session (w w' : World) : Prop := ses (this w') = ses (this w).

(** A cell with its geometry left out. *)
Definition without_geometry (x : mxCell) : mxCell := cell_set_geometry None x.

(** Nothing but the geometry of [edge] differs between the two models. *)
Definition only_geometry_of (edge : cell) (w w' : World) : Prop :=
  forall c,
    (c <> edge -> model w' !! c = model w !! c) /\
    without_geometry <$> model w' !! c = without_geometry <$> model w !! c.

(** The calls that can change nothing but the geometry of [edge]. *)
Definition geometry_call_of (edge : cell) (c : Call) : bool :=
  match c with
  | SetGeometry x _ => bool_decide (x = edge)
  | _ => negb (is_mutation c)
  end.

(** * Properties *)

(** ** Reasoning about the monad *)

Lemma se_bind_normal {S A B} (m : SE S A) (k : A -> SE S B) s a s' :
  m s = (Normal a, s') -> se_bind m k s = k a s'.
Proof. intros Hm. unfold se_bind. now rewrite Hm. Qed.

Lemma se_bind_throw {S A B} (m : SE S A) (k : A -> SE S B) s e s' :
  m s = (Throw e, s') -> se_bind m k s = (Throw e, s').
Proof. intros Hm. unfold se_bind. now rewrite Hm. Qed.

Section Stable.

Context {S : Type} (R : S -> S -> Prop).
Hypothesis R_refl : forall s, R s s.
Hypothesis R_trans : forall s1 s2 s3, R s1 s2 -> R s2 s3 -> R s1 s3.

Lemma stable_ret {A} (a : A) : stable R (se_ret a).
Proof. intros s. apply R_refl. Qed.

Lemma stable_throw {A} e : stable R (@se_throw S A e).
Proof. intros s. apply R_refl. Qed.

Lemma stable_get : stable R se_get.
Proof. intros s. apply R_refl. Qed.

Lemma stable_deref {A} (o : option A) : stable R (deref o).
Proof. destruct o; [apply stable_ret | apply stable_throw]. Qed.

Lemma stable_bind {A B} (m : SE S A) (k : A -> SE S B) :
  stable R m -> (forall a, stable R (k a)) -> stable R (se_bind m k).
Proof.
  intros Hm Hk s. unfold se_bind.
  specialize (Hm s). destruct (m s) as [[a | e] s']; simpl in *.
  - eapply R_trans; [exact Hm | apply Hk].
  - exact Hm.
Qed.

Lemma stable_modify (f : S -> S) : (forall s, R s (f s)) -> stable R (se_modify f).
Proof. intros Hf s. apply Hf. Qed.

Lemma stable_when b (m : SE S unit) : stable R m -> stable R (when_ b m).
Proof. destruct b; [trivial | intros _; apply stable_ret]. Qed.

Lemma stable_try_finally {A} (m : SE S A) (f : SE S unit) :
  stable R m -> stable R f -> stable R (try_finally m f).
Proof.
  intros Hm Hf s. unfold try_finally.
  specialize (Hm s). destruct (m s) as [r s']. specialize (Hf s').
  destruct (f s') as [[[] | e] s'']; simpl in *; eapply R_trans; eauto.
Qed.

Lemma stable_for_range lo hi (body : Z -> SE S unit) :
  (forall i, stable R (body i)) -> stable R (for_range lo hi body).
Proof.
  intros Hb. unfold for_range. induction (seqZ lo (hi - lo)) as [| i l IH]; simpl.
  - apply stable_ret.
  - apply stable_bind; [apply Hb | intros _; exact IH].
Qed.

End Stable.

(** Breaks a computation down to its primitive steps; [r] and [t] are
    the reflexivity and transitivity of the relation. *)
Ltac stable_step r t :=
  first
    [ apply (stable_ret _ r) | apply (stable_throw _ r) | apply (stable_get _ r)
    | apply (stable_deref _ r)
    | apply (stable_bind _ t); [| intros ?]
    | apply (stable_when _ r)
    | apply (stable_try_finally _ t)
    | apply (stable_for_range _ r t); intros ?
    | match goal with
      | |- stable _ (match ?x with _ => _ end) => destruct x
      | |- stable _ (let '(_, _) := ?x in _) => destruct x
      end ].

(** ** The handler-local code keeps the edge state and the switches *)

Lemma same_edge_refl h : same_edge h h.
Proof. now split. Qed.

Lemma same_edge_trans h1 h2 h3 : same_edge h1 h2 -> same_edge h2 h3 -> same_edge h1 h3.
Proof. intros [? ?] [? ?]. split; congruence. Qed.

Ltac same_edge_tac :=
  intros;
  repeat (first
    [ assumption
    | apply stable_modify; intros ?; now split
    | stable_step same_edge_refl same_edge_trans ]).

Section HandlerFrame.

Variable E : Env.

Lemma drawPreview_same_edge : stable same_edge (drawPreview E).
Proof. unfold drawPreview. same_edge_tac. Qed.

Lemma place_bend_same_edge i p b : stable same_edge (place_bend i p b).
Proof. unfold place_bend. same_edge_tac. Qed.

Lemma redrawInnerBends_same_edge : stable same_edge redrawInnerBends.
Proof.
  pose proof place_bend_same_edge. unfold redrawInnerBends. same_edge_tac.
Qed.

Lemma redrawHandles_same_edge : stable same_edge (redrawHandles E).
Proof.
  pose proof place_bend_same_edge. pose proof redrawInnerBends_same_edge.
  unfold redrawHandles. same_edge_tac.
Qed.

Lemma redraw_same_edge mdl : stable same_edge (redraw E mdl).
Proof.
  pose proof redrawHandles_same_edge. pose proof drawPreview_same_edge.
  unfold redraw. same_edge_tac.
Qed.

Lemma reset_same_edge mdl : stable same_edge (reset E mdl).
Proof.
  pose proof (redraw_same_edge mdl).
  unfold reset, setPreviewColor. same_edge_tac.
Qed.

End HandlerFrame.

(** ** Gestures and commit operations *)

Section Properties.

Variable E : Env.

Lemma liftH_frame {A} (f : gmap cell mxCell -> H A) (w : World) :
  model (liftH f w).2 = model w /\ trace (liftH f w).2 = trace w /\
  updateLevel (liftH f w).2 = updateLevel w /\
  this (liftH f w).2 = (f (model w) (this w)).2.
Proof. unfold liftH. destruct (f (model w) (this w)) as [r h]. now simpl. Qed.

Lemma moved_false (h : mxEdgeHandler) (me : mxMouseEvent) :
  (getX me == startX (ses h))%Q -> (getY me == startY (ses h))%Q -> moved h me = false.
Proof.
  intros Hx Hy. unfold moved.
  now rewrite (Qeq_eq_bool _ _ Hx), (Qeq_eq_bool _ _ Hy).
Qed.

(** The tail of [mouseUp] when the edge has not been replaced: [reset]
    and no selection update. *)
Lemma mouseUp_tail_frame (w : World) :
  let k := (do w' <- se_get;
            when_ (negb (bool_decide (es_cell (state (this w)) = es_cell (state (this w')))))
                  (call E (SetSelectionCell (es_cell (state (this w)))))) in
  let w1 := (se_bind (liftH (reset E)) (fun _ => k) w).2 in
  model w1 = model w /\ trace w1 = trace w /\ updateLevel w1 = updateLevel w.
Proof.
  intros k w1. subst w1 k.
  destruct (liftH_frame (reset E) w) as (Hm & Ht & Hl & Hthis).
  pose proof (reset_same_edge E (model w) (this w)) as [Hst _].
  destruct (liftH (reset E) w) as [[[] | e] w'] eqn:Hr; simpl in *.
  - rewrite (se_bind_normal _ _ _ _ _ Hr).
    unfold se_bind, se_get. rewrite Hthis, Hst.
    rewrite bool_decide_eq_true_2 by reflexivity. simpl. auto.
  - rewrite (se_bind_throw _ _ _ _ _ Hr). simpl. auto.
Qed.

(** Without movement, or with the silent validation error, [mouseUp] does
    nothing but [reset]. *)
Lemma mouseUp_quiet (w : World) (me : mxMouseEvent) :
  moved (this w) me = false \/ error (ses (this w)) = Some "" ->
  mouseUp E me w =
  match index (ses (this w)), marker (this w) with
  | Some _, Some _ =>
    se_bind (liftH (reset E))
      (fun _ =>
         do w' <- se_get;
         when_ (negb (bool_decide (es_cell (state (this w)) = es_cell (state (this w')))))
               (call E (SetSelectionCell (es_cell (state (this w)))))) w
  | _, _ => (Normal tt, w)
  end.
Proof.
  intros Hq. unfold mouseUp. unfold se_bind at 1, se_get at 1.
  destruct (index (ses (this w))) as [i |]; [| reflexivity].
  destruct (marker (this w)) as [m |] eqn:Hm; [| reflexivity].
  assert (Hpre : (if moved (this w) me
                  then match error (ses (this w)) with
                       | Some e =>
                         when_ (0 <? String.length e)%nat (call E (ValidationAlert e)) ;;
                         se_ret (es_cell (state (this w)))
                       | None => se_ret (es_cell (state (this w)))
                       end
                  else se_ret (es_cell (state (this w)))) w
                 = (Normal (es_cell (state (this w))), w)).
  { destruct Hq as [-> | Herr]; [reflexivity |].
    rewrite Herr. now destruct (moved (this w) me). }
  destruct Hq as [Hmv | Herr].
  - rewrite Hmv. unfold se_bind at 1, se_ret at 1, se_bind at 1, se_get at 1.
    now rewrite Hm.
  - rewrite Herr in *. unfold se_bind at 1. rewrite Hpre.
    unfold se_bind at 1, se_get at 1. now rewrite Hm.
Qed.

Lemma mouseUp_quiet_frame (w : World) (me : mxMouseEvent) :
  moved (this w) me = false \/ error (ses (this w)) = Some "" ->
  model (mouseUp E me w).2 = model w /\
  trace (mouseUp E me w).2 = trace w /\
  updateLevel (mouseUp E me w).2 = updateLevel w.
Proof.
  intros Hq. rewrite (mouseUp_quiet _ _ Hq).
  destruct (index (ses (this w))) as [i |]; [| now simpl].
  destruct (marker (this w)) as [m |]; [| now simpl].
  apply mouseUp_tail_frame.
Qed.

(** C1. A pointer-up at the coordinates of the pointer-down anchor leaves
    the model as it is: the cells, the transaction depth and the record of
    calls are unchanged, so no commit operation ([moveLabel], [connect],
    [changeTerminalPoint], [changePoints]) has been entered and no
    collaborator has been called. *)
Theorem mouseUp_without_movement (w : World) (me : mxMouseEvent) :
  (getX me == startX (ses (this w)))%Q ->
  (getY me == startY (ses (this w)))%Q ->
  model (mouseUp E me w).2 = model w /\
  trace (mouseUp E me w).2 = trace w /\
  updateLevel (mouseUp E me w).2 = updateLevel w.
Proof.
  intros Hx Hy. apply mouseUp_quiet_frame. left. now apply moved_false.
Qed.

(** C3. On an endpoint drag with no resolved terminal state and no marked
    state, [updatePreviewState] returns normally and leaves the validation
    error null when dangling edges are allowed and the empty string when
    they are not; and [mouseUp] with the empty-string error raises no
    alert and changes nothing in the model: no collaborator is called. *)
Theorem dangling_endpoint_validation :
  (forall (h : mxEdgeHandler) (edge : mxEdgeState) (point : mxPoint)
          (m : mxCellMarker) (ch : mxConstraintHandler),
     isSource (ses h) || isTarget (ses h) = true ->
     marker h = Some m -> markedState m = None -> constraintHandler h = Some ch ->
     exists edge',
       updatePreviewState E edge point None h =
       (Normal edge',
        set_ses (ses_error (if allowDanglingEdges E then None else Some "")) h)) /\
  (forall (w : World) (me : mxMouseEvent),
     error (ses (this w)) = Some "" ->
     model (mouseUp E me w).2 = model w /\
     trace (mouseUp E me w).2 = trace w /\
     updateLevel (mouseUp E me w).2 = updateLevel w).
Proof.
  split.
  - intros h edge point m ch Hend Hm Hmk Hch.
    unfold updatePreviewState, se_bind, se_get.
    rewrite Hch, Hend, Hm. cbn [deref se_ret andb].
    rewrite bool_decide_eq_true_2 by reflexivity. rewrite Hmk.
    rewrite bool_decide_eq_true_2 by reflexivity.
    cbn [when_ se_modify se_ret]. eexists. reflexivity.
  - intros w me Herr. apply mouseUp_quiet_frame. now right.
Qed.

(** C8. With no geometry on the edge, [moveLabel], [changeTerminalPoint],
    [changePoints] and [addPointAt] return normally, leave the cells and
    the handler as they are and call no collaborator; the record only
    gains the entry of the operation itself. *)
Theorem commit_without_geometry (w : World) :
  (forall st x y, getGeometry (model w) (es_cell st) = None ->
     moveLabel E st x y w = (Normal tt, log (Invoked OpMoveLabel) w)) /\
  (forall edge pt isSrc, getGeometry (model w) edge = None ->
     changeTerminalPoint E edge pt isSrc w = (Normal tt, log (Invoked OpChangeTerminalPoint) w)) /\
  (forall edge pts, getGeometry (model w) edge = None ->
     changePoints E edge pts w = (Normal tt, log (Invoked OpChangePoints) w)) /\
  (forall st x y, getGeometry (model w) (es_cell st) = None ->
     addPointAt E st x y w = (Normal tt, log (Invoked OpAddPointAt) w)).
Proof.
  repeat split; intros;
    unfold moveLabel, changeTerminalPoint, changePoints, addPointAt, entered,
      se_bind, se_modify, se_get; simpl;
    match goal with Hg : getGeometry _ _ = None |- _ => now rewrite Hg end.
Qed.

(** C10. [getPreviewPoints] reads [geometry.points] without a null check:
    it throws a TypeError exactly when the edge has no geometry, and so
    does every [mouseMove] of an armed drag that is not a label drag;
    with a geometry [getPreviewPoints] returns normally. *)
Theorem preview_requires_geometry (mdl : gmap cell mxCell) (h : mxEdgeHandler) :
  (forall point, getGeometry mdl (es_cell (state h)) = None ->
     getPreviewPoints E mdl point h = (Throw TypeError, h)) /\
  (forall point g, getGeometry mdl (es_cell (state h)) = Some g ->
     exists r, getPreviewPoints E mdl point h = (Normal r, h)) /\
  (forall me i m, getGeometry mdl (es_cell (state h)) = None ->
     index (ses h) = Some i -> marker h = Some m -> isLabel (ses h) = false ->
     mouseMove E mdl me h = (Throw TypeError, h)).
Proof.
  split; [| split].
  - intros point Hg. unfold getPreviewPoints, se_bind, se_get. now rewrite Hg.
  - intros point g Hg. unfold getPreviewPoints, se_bind, se_get. rewrite Hg. simpl.
    destruct (negb (isSource (ses h)) && negb (isTarget (ses h))).
    + destruct (gpoints g); eexists; reflexivity.
    + destruct (resetEdgesOnConnect E); eexists; reflexivity.
  - intros me i m Hg Hi Hm Hl.
    unfold mouseMove. unfold se_bind at 1, se_get at 1. rewrite Hi, Hm, Hl.
    unfold se_bind at 1, se_bind at 1.
    unfold getPreviewPoints, se_bind, se_get. now rewrite Hg.
Qed.

(** *** Transactions *)

Lemma grows_refl (w : World) : grows_bracket_free w w.
Proof. exists []. split; [now rewrite app_nil_r | constructor]. Qed.

Lemma grows_trans (w1 w2 w3 : World) :
  grows_bracket_free w1 w2 -> grows_bracket_free w2 w3 -> grows_bracket_free w1 w3.
Proof.
  intros (e1 & H1 & F1) (e2 & H2 & F2). exists (e1 ++ e2). split.
  - now rewrite H2, H1, app_assoc.
  - now apply Forall_app.
Qed.

Lemma call_trace (c : Call) (w : World) : trace (call E c w).2 = trace w ++ [c].
Proof. unfold call. cbn. now destruct (throws E c (model w)). Qed.

Lemma call_grows (c : Call) : is_bracket c = false -> stable grows_bracket_free (call E c).
Proof.
  intros Hc w. exists [c]. split; [apply call_trace | now repeat constructor].
Qed.

Lemma liftH_grows {A} (f : gmap cell mxCell -> H A) : stable grows_bracket_free (liftH f).
Proof.
  intros w. exists []. destruct (liftH_frame f w) as (_ & Ht & _).
  split; [now rewrite app_nil_r | constructor].
Qed.

Lemma entered_trace (op : CommitOp) (w : World) :
  entered op w = (Normal tt, log (Invoked op) w).
Proof. reflexivity. Qed.

Ltac grows_tac :=
  intros;
  repeat (first
    [ assumption
    | apply call_grows; reflexivity
    | apply liftH_grows
    | apply stable_modify; intros ?; apply grows_refl
    | stable_step grows_refl grows_trans ]).

Lemma connect_try_grows p edge terminal isSrc isClone :
  stable grows_bracket_free (connect_try E p edge terminal isSrc isClone).
Proof. unfold connect_try, cell_clone. grows_tac. Qed.

Lemma changeTerminalPoint_try_grows edge geo pt isSrc :
  stable grows_bracket_free (changeTerminalPoint_try E edge geo pt isSrc).
Proof. unfold changeTerminalPoint_try. grows_tac. Qed.

(** A transaction: [beginUpdate], then the [try] block with [endUpdate] in
    its [finally]. *)
Lemma transaction_trace {A} (body : M A) (w : World) :
  stable grows_bracket_free body ->
  exists ext,
    trace ((call E BeginUpdate ;; try_finally body (call E EndUpdate)) w).2 = trace w ++ ext /\
    if throws E BeginUpdate (model w) then ext = [BeginUpdate] else bracketed ext.
Proof.
  intros Hbody. unfold se_bind. unfold call at 1. cbn [log model trace].
  destruct (throws E BeginUpdate (model w)) eqn:Hb.
  - exists [BeginUpdate]. now split.
  - set (w1 := MkWorld _ _ _ _). unfold try_finally.
    destruct (Hbody w1) as (mid & Hmid & Hfree).
    destruct (body w1) as [r w2]. cbn [snd] in Hmid.
    pose proof (call_trace EndUpdate w2) as Hend.
    destruct (call E EndUpdate w2) as [[[] | e] w3]; cbn [snd] in *;
      (exists (BeginUpdate :: mid ++ [EndUpdate]); split;
       [ rewrite Hend, Hmid; subst w1; cbn [trace];
         now rewrite <- !app_assoc
       | exists mid; now split ]).
Qed.

Lemma bracketed_mutations (t : list Call) :
  bracketed t -> mutations_bracketed 0 t = true.
Proof.
  intros (mid & -> & Hfree). cbn [mutations_bracketed].
  induction Hfree as [| c mid Hc _ IH]; [reflexivity |].
  destruct c; try discriminate Hc; cbn; exact IH.
Qed.

(** C2, as the code has it.  [connect] and [changeTerminalPoint] call
    [beginUpdate] first; when it returns, every further call of the
    operation comes before an [endUpdate] that is made whether the block
    returns or throws.  [moveLabel], [changePoints], [addPointAt] and
    [removePoint] call neither [beginUpdate] nor [endUpdate]: what they
    call, the [setGeometry] included, is outside any bracket of their own. *)
Theorem transaction_brackets (w : World) :
  (forall edge terminal isSrc isClone,
     exists ext,
       trace (connect E edge terminal isSrc isClone w).2 = trace w ++ Invoked OpConnect :: ext /\
       if throws E BeginUpdate (model w) then ext = [BeginUpdate] else bracketed ext) /\
  (forall edge pt isSrc,
     exists ext,
       trace (changeTerminalPoint E edge pt isSrc w).2 =
         trace w ++ Invoked OpChangeTerminalPoint :: ext /\
       match getGeometry (model w) edge with
       | None => ext = []
       | Some _ => if throws E BeginUpdate (model w) then ext = [BeginUpdate] else bracketed ext
       end) /\
  (forall st x y, grows_bracket_free w (moveLabel E st x y w).2) /\
  (forall edge pts, grows_bracket_free w (changePoints E edge pts w).2) /\
  (forall st x y, grows_bracket_free w (addPointAt E st x y w).2) /\
  (forall st idx, grows_bracket_free w (removePoint E st idx w).2).
Proof.
  repeat split.
  - intros edge terminal isSrc isClone. unfold connect.
    rewrite (se_bind_normal _ _ _ _ _ (entered_trace OpConnect w)).
    unfold se_bind at 1, se_get at 1.
    destruct (transaction_trace
                (connect_try E (getParent (model (log (Invoked OpConnect) w)) edge)
                   edge terminal isSrc isClone)
                (log (Invoked OpConnect) w)
                (connect_try_grows _ _ _ _ _)) as (ext & Ht & Hext).
    exists ext. split; [| exact Hext].
    rewrite Ht. cbn [log trace]. now rewrite <- app_assoc.
  - intros edge pt isSrc. unfold changeTerminalPoint.
    rewrite (se_bind_normal _ _ _ _ _ (entered_trace OpChangeTerminalPoint w)).
    unfold se_bind at 1, se_get at 1. cbn [log model].
    destruct (getGeometry (model w) edge) as [geo |].
    + destruct (transaction_trace
                  (changeTerminalPoint_try E edge geo pt isSrc)
                  (log (Invoked OpChangeTerminalPoint) w)
                  (changeTerminalPoint_try_grows _ _ _ _)) as (ext & Ht & Hext).
      exists ext. split; [| exact Hext].
      rewrite Ht. cbn [log trace]. now rewrite <- app_assoc.
    + exists []. now split.
  - intros st x y. unfold moveLabel, entered.
    apply (stable_bind _ grows_trans).
    + apply stable_modify. intros w0. exists [Invoked OpMoveLabel]. now repeat constructor.
    + grows_tac.
  - intros edge pts. unfold changePoints, entered.
    apply (stable_bind _ grows_trans).
    + apply stable_modify. intros w0. exists [Invoked OpChangePoints]. now repeat constructor.
    + grows_tac.
  - intros st x y. unfold addPointAt, entered.
    apply (stable_bind _ grows_trans).
    + apply stable_modify. intros w0. exists [Invoked OpAddPointAt]. now repeat constructor.
    + grows_tac.
  - intros st idx. unfold removePoint, entered.
    apply (stable_bind _ grows_trans).
    + apply stable_modify. intros w0. exists [Invoked OpRemovePoint]. now repeat constructor.
    + grows_tac.
Qed.

(** *** Reconnecting with a clone *)

(** A call inside an open transaction that does not fail. *)
Lemma call_inner (c : Call) (w : World) (l : nat) :
  throws E c (model w) = false -> is_bracket c = false -> updateLevel w = S l ->
  call E c w =
  (Normal tt, MkWorld (this w) (perform c (model w)) (S l) (trace w ++ [c])).
Proof.
  intros Ht Hc Hl. unfold call. cbn [log model updateLevel this trace]. rewrite Ht, Hl.
  replace (level_after c (S l)) with (S l) by now destruct c.
  reflexivity.
Qed.

(** The cells after the four calls of a cloning [connect]. *)
Lemma clone_cells (mdl : gmap cell mxCell) (e c terminal : cell) (isSrc : bool)
    (x : mxCell) (cst : option mxConnectionConstraint) :
  mdl !! e = Some x -> mdl !! c = None ->
  (forall q, parent x = Some q -> is_Some (mdl !! q)) ->
  let m1 := perform (CloneCell e c) mdl in
  let p := getParent mdl e in
  let m2 := perform (ModelAdd p c (getChildCount m1 p)) m1 in
  let m3 := perform (ConnectCell c (getTerminal m2 e (negb isSrc)) (negb isSrc) None) m2 in
  let m4 := perform (ConnectCell c (Some terminal) isSrc cst) m3 in
  (exists y, m4 !! c = Some y /\ geometry y = geometry x /\ parent y = parent x /\
             (if isSrc then target y else source y) = (if isSrc then target x else source x) /\
             (if isSrc then source y else target y) = Some terminal) /\
  (forall q, parent x = Some q -> exists z, m4 !! q = Some z /\ c ∈ children z) /\
  getGeometry m4 e = getGeometry mdl e.
Proof.
  intros Hx Hc Hp m1 p m2 m3 m4.
  assert (Hne : c <> e) by congruence.
  assert (H1c : m1 !! c = Some (MkCell (geometry x) None None None [])).
  { subst m1. cbn [perform]. rewrite Hx. apply lookup_insert_eq. }
  assert (H1o : forall j, j <> c -> m1 !! j = mdl !! j).
  { intros j Hj. subst m1. cbn [perform]. rewrite Hx. now apply lookup_insert_ne. }
  assert (Hpx : p = parent x) by (subst p; unfold getParent; now rewrite Hx).
  assert (H2 : m2 !! c = Some (MkCell (geometry x) (parent x) None None []) /\
               (exists x2, m2 !! e = Some x2 /\ geometry x2 = geometry x /\
                           source x2 = source x /\ target x2 = target x) /\
               (forall q, parent x = Some q -> exists z, m2 !! q = Some z /\ c ∈ children z)).
  { subst m2. rewrite Hpx. destruct (parent x) as [q |] eqn:Hq; cbn [perform].
    - destruct (Hp q eq_refl) as [z Hz].
      assert (Hqc : q <> c) by congruence.
      rewrite bool_decide_eq_false_2 by congruence.
      split; [| split].
      + rewrite lookup_alter_ne by exact Hqc. rewrite lookup_alter_eq, H1c. reflexivity.
      + destruct (decide (q = e)) as [-> | Hqe].
        * rewrite lookup_alter_eq, lookup_alter_ne, H1o, Hx by congruence.
          eexists. split; [reflexivity |]. now cbn.
        * rewrite !lookup_alter_ne, H1o, Hx by congruence. now exists x.
      + intros q' [= <-]. rewrite lookup_alter_eq, lookup_alter_ne, H1o, Hz by congruence.
        eexists. split; [reflexivity |]. cbn. set_solver.
    - split; [exact H1c | split].
      + rewrite H1o, Hx by congruence. now exists x.
      + intros q [=]. }
  destruct H2 as (H2c & (x2 & H2e & Hg2 & Hs2 & Ht2) & H2q).
  assert (H4o : forall j, j <> c -> m4 !! j = m2 !! j).
  { intros j Hj. subst m4 m3. cbn [perform]. now rewrite !lookup_alter_ne by congruence. }
  split; [| split].
  - subst m4 m3. cbn [perform]. rewrite !lookup_alter_eq, H2c. cbn [fmap option_fmap option_map].
    eexists. split; [reflexivity |].
    unfold getTerminal. rewrite H2e. destruct isSrc; cbn; rewrite ?Hs2, ?Ht2; auto.
  - intros q Hq. destruct (Hp q Hq) as [z Hz].
    rewrite H4o by congruence. now apply H2q.
  - unfold getGeometry. rewrite H4o, H2e, Hx by congruence. exact Hg2.
Qed.

(** C6. A cloning [connect] that no call fails returns a new cell: a
    duplicate of the edge (same geometry) under the same parent, whose
    untouched end is the terminal the original has there and whose dragged
    end is the new terminal; the geometry of the original is unchanged. *)
Theorem connect_clone (w : World) (edge terminal : cell) (isSrc : bool)
    (x : mxCell) (ch : mxConstraintHandler) :
  (forall c m, throws E c m = false) ->
  model w !! edge = Some x ->
  (forall p, parent x = Some p -> is_Some (model w !! p)) ->
  constraintHandler (this w) = Some ch ->
  exists clone w',
    connect E edge terminal isSrc true w = (Normal clone, w') /\
    clone <> edge /\
    model w !! clone = None /\
    (exists y, model w' !! clone = Some y /\
               geometry y = geometry x /\ parent y = parent x /\
               (if isSrc then target y else source y) =
                 getTerminal (model w) edge (negb isSrc) /\
               (if isSrc then source y else target y) = Some terminal) /\
    (forall p, parent x = Some p ->
               exists z, model w' !! p = Some z /\ clone ∈ children z) /\
    getGeometry (model w') edge = getGeometry (model w) edge.
Proof.
  intros Hthrows Hx Hp Hch.
  set (clone := fresh (dom (model w))).
  assert (Hfresh : model w !! clone = None).
  { apply not_elem_of_dom. apply is_fresh. }
  assert (Hne : clone <> edge) by congruence.
  pose proof (clone_cells (model w) edge clone terminal isSrc x
                (Some (default default_constraint (currentConstraint ch))) Hx Hfresh Hp)
    as Hcells.
  cbv zeta in Hcells.
  exists clone. eexists. split; [| split; [exact Hne | split; [exact Hfresh |]]].
  - unfold connect.
    rewrite (se_bind_normal _ _ _ _ _ (entered_trace OpConnect w)).
    unfold se_bind at 1, se_get at 1. unfold se_bind at 1.
    unfold call at 1. rewrite Hthrows.
    cbn [log model updateLevel this trace level_after perform].
    rewrite bool_decide_eq_false_2 by discriminate. cbn [andb].
    unfold try_finally, connect_try, cell_clone, se_bind, se_get, se_ret.
    cbn [model this updateLevel trace].
    repeat (erewrite call_inner; [| apply Hthrows | reflexivity | reflexivity]).
    cbn [model this updateLevel trace]. rewrite Hch. cbn [deref se_ret].
    erewrite call_inner; [| apply Hthrows | reflexivity | reflexivity].
    unfold call. rewrite Hthrows. reflexivity.
  - cbn [model log perform].
    destruct Hcells as ((y & Hy & Hg & Hpar & Hun & Hdr) & Hch' & Hgeo).
    fold clone. split; [| split].
    + exists y. repeat split; try assumption.
      rewrite Hun. unfold getTerminal. rewrite Hx. now destruct isSrc.
    + exact Hch'.
    + exact Hgeo.
Qed.

(** *** Dragging a waypoint *)

Lemma js_array_set_in_range {A} (a : jsarray A) (k : Z) (v : A) :
  (0 <= k < Z.of_nat (length a))%Z -> js_array_set a k v = <[Z.to_nat k := Some v]> a.
Proof.
  intros Hk. unfold js_array_set, js_array_put.
  destruct (Z.ltb_spec k 0); [lia |].
  destruct (Nat.ltb_spec (Z.to_nat k) (length a)); [reflexivity | lia].
Qed.

Lemma js_array_set_past_end {A} (a : jsarray A) (k : Z) (v : A) :
  (Z.of_nat (length a) <= k)%Z ->
  js_array_set a k v = a ++ replicate (Z.to_nat k - length a) None ++ [Some v].
Proof.
  intros Hk. unfold js_array_set, js_array_put.
  destruct (Z.ltb_spec k 0); [lia |].
  destruct (Nat.ltb_spec (Z.to_nat k) (length a)); [lia | reflexivity].
Qed.

Lemma js_array_get_set_eq {A} (a : jsarray A) (k : Z) (v : A) :
  (0 <= k)%Z -> js_array_get (js_array_set a k v) k = Some v.
Proof.
  intros Hk. unfold js_array_get, js_array_set, js_array_put.
  destruct (Z.ltb_spec k 0); [lia |].
  destruct (Nat.ltb_spec (Z.to_nat k) (length a)).
  - now rewrite list_lookup_insert_eq.
  - rewrite lookup_app_r by assumption.
    rewrite lookup_app_r by (rewrite length_replicate; lia).
    rewrite length_replicate. now rewrite Nat.sub_diag.
Qed.

Lemma js_array_get_set_ne {A} (a : jsarray A) (k j : Z) (v : A) :
  (0 <= k)%Z -> j <> k -> js_array_get (js_array_set a k v) j = js_array_get a j.
Proof.
  intros Hk Hj. unfold js_array_get, js_array_set, js_array_put.
  destruct (Z.ltb_spec k 0); [lia |].
  destruct (Z.ltb_spec j 0); [reflexivity |].
  assert (Hn : Z.to_nat k <> Z.to_nat j) by lia.
  destruct (Nat.ltb_spec (Z.to_nat k) (length a)).
  - now rewrite list_lookup_insert_ne.
  - destruct (Nat.lt_ge_cases (Z.to_nat j) (length a)) as [Hlt | Hge].
    + now rewrite lookup_app_l.
    + rewrite (lookup_ge_None_2 a) by assumption.
      rewrite lookup_app_r by assumption.
      destruct (Nat.lt_ge_cases (Z.to_nat j - length a) (Z.to_nat k - length a)) as [Hl | Hg].
      * rewrite lookup_app_l by now rewrite length_replicate.
        now rewrite lookup_replicate_2.
      * rewrite lookup_app_r by now rewrite length_replicate.
        rewrite length_replicate.
        destruct (Z.to_nat j - length a - (Z.to_nat k - length a))%nat eqn:Hd; [lia |].
        reflexivity.
Qed.

Lemma same_model_refl (w : World) : same_model w w.
Proof. reflexivity. Qed.

Lemma same_model_trans (w1 w2 w3 : World) :
  same_model w1 w2 -> same_model w2 w3 -> same_model w1 w3.
Proof. unfold same_model. congruence. Qed.

Lemma call_same_model (c : Call) : is_mutation c = false -> stable same_model (call E c).
Proof.
  intros Hc w. unfold same_model, call. cbn.
  destruct (throws E c (model w)); [reflexivity |]. cbn. now destruct c.
Qed.

Lemma liftH_same_model {A} (f : gmap cell mxCell -> H A) : stable same_model (liftH f).
Proof. intros w. apply liftH_frame. Qed.

(** What [mouseUp] does after the commit: [reset] and the update of the
    selection. *)
Lemma mouseUp_tail_same_model (edge : cell) :
  stable same_model
    (do w <- se_get;
     match marker (this w) with
     | Some _ =>
       liftH (reset E) ;;
       do w <- se_get;
       when_ (negb (bool_decide (edge = es_cell (state (this w)))))
             (call E (SetSelectionCell edge))
     | None => se_ret tt
     end).
Proof.
  repeat (first
    [ apply call_same_model; reflexivity
    | apply liftH_same_model
    | stable_step same_model_refl same_model_trans ]).
Qed.

Lemma updatePreviewState_interior (edge : mxEdgeState) (point : mxPoint)
    (ts : option mxCellState) (h : mxEdgeHandler) (ch : mxConstraintHandler) :
  isSource (ses h) = false -> isTarget (ses h) = false -> constraintHandler h = Some ch ->
  exists edge', updatePreviewState E edge point ts h = (Normal edge', h).
Proof.
  intros Hs Ht Hch. unfold updatePreviewState, se_bind, se_get.
  rewrite Hch, Hs, Ht. cbn [deref se_ret orb andb]. eexists. reflexivity.
Qed.

Lemma mouseMove_interior (mdl : gmap cell mxCell) (h : mxEdgeHandler) (me : mxMouseEvent)
    (i : Z) (g : mxGeometry) (m : mxCellMarker) (ch : mxConstraintHandler) (col : color) :
  index (ses h) = Some i -> isSource (ses h) = false -> isTarget (ses h) = false ->
  isLabel (ses h) = false -> error (ses h) = None ->
  marker h = Some m -> constraintHandler h = Some ch -> shape (hnd h) = Some col ->
  getGeometry mdl (es_cell (state h)) = Some g ->
  let point := convertPoint E mdl h (getPointForEvent E h me) false in
  let previewed := match gpoints g with
                   | None => [Some point]
                   | Some ps => js_array_set ps (i - 1) point
                   end in
  exists h',
    mouseMove E mdl me h = (Normal tt, h') /\
    state h' = state h /\ marker h' = Some m /\
    ses h' = MkSession (startX (ses h)) (startY (ses h)) (Some i) false false false true None
               (Some previewed).
Proof.
  intros Hi Hs Ht Hl He Hm Hch Hsh Hg point previewed.
  destruct (updatePreviewState_interior (state h) point None
              (set_ses (ses_points (Some previewed)) h) ch Hs Ht Hch) as [e' He'].
  unfold mouseMove. unfold se_bind at 1, se_get at 1. rewrite Hi, Hm, Hl.
  unfold getPreviewPoints, se_bind, se_get. rewrite Hg, Hs, Ht. cbn [deref se_ret negb andb orb].
  fold point. rewrite Hi. cbn [index_minus_1].
  assert (Hpre : match gpoints g with
                 | Some ps => se_ret (Some (js_array_set ps (i - 1) point), point)
                 | None => se_ret (Some [Some point], point)
                 end h = (Normal (Some previewed, point), h)).
  { subst previewed. now destruct (gpoints g). }
  rewrite Hpre. cbn [se_modify]. rewrite He'.
  cbn [set_ses marker ses ses_points error deref se_ret]. rewrite Hm, He.
  cbn [deref se_ret]. rewrite bool_decide_eq_true_2 by reflexivity.
  unfold setPreviewColor, drawPreview, se_modify, se_bind, se_get.
  cbn [set_hnd set_ses ses hnd ses_active ses_points isLabel shape hnd_abspoints hnd_shape].
  rewrite Hsh, Hl. cbn [hnd_shape shape deref se_ret].
  eexists. split; [reflexivity |].
  unfold set_ses, set_hnd, ses_active, ses_points.
  cbn [state marker ses startX startY index isSource isTarget isLabel active error points].
  rewrite Hi, Hs, Ht, Hl, He. now repeat split.
Qed.

(** C7. On the drag of the waypoint handle [i] (neither endpoint, not the
    label) [mouseMove] previews a list that is the waypoints of the
    geometry with the entry [i - 1] set to the converted pointer point:
    that entry holds the point, every other entry reads as before, and
    when the entry exists the list is the old one with that entry
    replaced (an index past the end extends the list with holes up to the
    new entry); without waypoints in the geometry the list is the point
    alone.  A following [mouseUp] away from the anchor stores exactly that
    list as the waypoints of the geometry in the model. *)
Theorem waypoint_drag_commit (mdl : gmap cell mxCell) (h : mxEdgeHandler) (me : mxMouseEvent)
    (i : Z) (g : mxGeometry) (m : mxCellMarker) (ch : mxConstraintHandler) (col : color) :
  index (ses h) = Some i -> (1 <= i)%Z ->
  isSource (ses h) = false -> isTarget (ses h) = false -> isLabel (ses h) = false ->
  error (ses h) = None ->
  marker h = Some m -> constraintHandler h = Some ch -> shape (hnd h) = Some col ->
  getGeometry mdl (es_cell (state h)) = Some g ->
  let point := convertPoint E mdl h (getPointForEvent E h me) false in
  exists previewed h',
    mouseMove E mdl me h = (Normal tt, h') /\
    points (ses h') = Some previewed /\
    match gpoints g with
    | None => previewed = [Some point]
    | Some ps =>
      js_array_get previewed (i - 1) = Some point /\
      (forall j, j <> (i - 1)%Z -> js_array_get previewed j = js_array_get ps j) /\
      ((i - 1 < Z.of_nat (length ps))%Z -> previewed = <[Z.to_nat (i - 1) := Some point]> ps) /\
      ((Z.of_nat (length ps) <= i - 1)%Z ->
       previewed = ps ++ replicate (Z.to_nat (i - 1) - length ps) None ++ [Some point])
    end /\
    forall (up : mxMouseEvent) (l : nat) (tr : list Call),
      moved h up = true ->
      throws E (SetGeometry (es_cell (state h)) (geo_set_points g (Some previewed))) mdl = false ->
      getGeometry (model (mouseUp E up (MkWorld h' mdl l tr)).2) (es_cell (state h)) =
      Some (geo_set_points g (Some previewed)).
Proof.
  intros Hi Hpos Hs Ht Hl He Hm Hch Hsh Hg point.
  destruct (mouseMove_interior mdl h me i g m ch col Hi Hs Ht Hl He Hm Hch Hsh Hg)
    as (h' & Hmove & Hst & Hmk & Hses).
  fold point in Hses.
  set (previewed := match gpoints g with
                    | None => [Some point]
                    | Some ps => js_array_set ps (i - 1) point
                    end) in *.
  exists previewed, h'. split; [exact Hmove |]. split; [now rewrite Hses |]. split.
  - subst previewed. destruct (gpoints g) as [ps |]; [| reflexivity].
    split; [apply js_array_get_set_eq; lia |].
    split; [intros j Hj; apply js_array_get_set_ne; [lia | exact Hj] |].
    split; [intros Hin; apply js_array_set_in_range; lia |].
    intros Hout. apply js_array_set_past_end. lia.
  - intros up l tr Hmv Hthr.
    assert (Hedge : exists x, mdl !! es_cell (state h) = Some x).
    { unfold getGeometry in Hg. destruct (mdl !! es_cell (state h)); [eauto | discriminate]. }
    destruct Hedge as [x Hx].
    unfold mouseUp. unfold se_bind at 1, se_get at 1.
    cbn [this]. rewrite Hses, Hmk. cbn [index error isLabel isSource isTarget active points orb].
    assert (Hmv' : moved h' up = true) by (unfold moved in *; now rewrite Hses).
    rewrite Hmv', Hst.
    set (tail := fun edge : cell => se_bind se_get _).
    unfold se_bind at 1.
    assert (Hcommit :
      exists r w1,
        (changePoints E (es_cell (state h)) (Some previewed) ;; se_ret (es_cell (state h)))
          (MkWorld h' mdl l tr) = (r, w1) /\
        getGeometry (model w1) (es_cell (state h)) = Some (geo_set_points g (Some previewed))).
    { unfold changePoints, entered, se_bind, se_modify, se_get, call.
      cbn [log model this updateLevel trace]. rewrite Hg.
      cbn [log model this updateLevel trace]. rewrite Hthr.
      do 2 eexists. split; [reflexivity |].
      cbn [model perform]. unfold getGeometry. rewrite lookup_alter_eq, Hx. reflexivity. }
    destruct Hcommit as (r & w1 & Hrun & Hgeo). rewrite Hrun.
    destruct r as [edge | e]; [| exact Hgeo].
    pose proof (mouseUp_tail_same_model edge w1) as Hsame.
    unfold same_model in Hsame. subst tail. cbv beta.
    rewrite Hsame. exact Hgeo.
Qed.

(** *** Snapping to the terminals *)



(** The loop over [this.abspoints] never enters its body: its bound is the
    array itself, which converts to 0 or to NaN. *)
Lemma snapToAbspoints_skips (tt : Q) (idx : option Z) (a : jsarray mxPoint) (st : SnapState) :
  snapToAbspoints tt idx a st = st.
Proof.
  unfold snapToAbspoints, array_ToNumber.
  destruct a as [| [p |] [| q a]]; reflexivity.
Qed.


(** *** The preview terminal state *)

(** C4, as the code has it.  When, after the constraint handler and the
    marker have processed the event, the constraint handler has both a
    focus and a constraint, the marker is reset; the state returned is
    nevertheless the valid state the marker had before the reset when it
    had one, and the focus of the constraint handler only when the marker
    had none. *)
Theorem getPreviewTerminalState_returns_marked
    (mdl : gmap cell mxCell) (me : mxMouseEvent) (h h1 : mxEdgeHandler)
    (m : mxCellMarker) (ch : mxConstraintHandler)
    (f : mxCellState) (c : mxConnectionConstraint) :
  updateAndProcess E mdl me h = (Normal tt, h1) ->
  marker h1 = Some m ->
  constraintHandler h1 = Some ch -> currentFocus ch = Some f -> currentConstraint ch = Some c ->
  getPreviewTerminalState E mdl me h =
    (Normal (match validState m with
             | Some s => Some s
             | None => Some f
             end),
     set_marker (Some (marker_reset m)) h1).
Proof.
  intros Hup Hm Hch Hf Hc. unfold getPreviewTerminalState.
  rewrite (se_bind_normal _ _ _ _ _ Hup).
  unfold se_bind, se_get. rewrite Hm. cbn [deref se_ret]. rewrite Hch. cbn [deref se_ret].
  rewrite Hf, Hc. now destruct (validState m).
Qed.

(** *** Hit testing *)

Lemma qualifying_one_eq hit me i b :
  qualifying E hit me [(i, b)] =
  match b with
  | Some sh => if shape_hit E hit me b then [(i, distSq me sh)] else []
  | None => []
  end.
Proof.
  unfold qualifying. cbn. destruct b as [sh |]; [| reflexivity].
  now destruct (shape_hit E hit me (Some sh)).
Qed.

Lemma qualifying_cons hit me i b l :
  qualifying E hit me ((i, b) :: l) = qualifying E hit me [(i, b)] ++ qualifying E hit me l.
Proof.
  unfold qualifying. cbn. destruct b as [sh |]; [| reflexivity].
  now destruct (shape_hit E hit me (Some sh)).
Qed.

Lemma checkShape_miss hit me m i b :
  qualifying E hit me [(i, b)] = [] -> checkShape E hit me m b = (false, m).
Proof.
  rewrite qualifying_one_eq. unfold checkShape. destruct b as [sh |]; [| reflexivity].
  now destruct (shape_hit E hit me (Some sh)).
Qed.

Lemma checkShape_hit hit me m i b c :
  qualifying E hit me [(i, b)] = [c] ->
  c.1 = i /\
  checkShape E hit me m b =
  match m with
  | None => (true, Some c.2)
  | Some d => if Qle_bool c.2 d then (true, Some c.2) else (false, m)
  end.
Proof.
  rewrite qualifying_one_eq. unfold checkShape. destruct b as [sh |]; [| intros [=]].
  destruct (shape_hit E hit me (Some sh)); [| intros [=]].
  intros [= <-]. simpl. split; [reflexivity |]. now destruct m.
Qed.

Lemma qualifying_one hit me i b :
  qualifying E hit me [(i, b)] = [] \/ exists c, qualifying E hit me [(i, b)] = [c].
Proof.
  rewrite qualifying_one_eq. destruct b as [sh |]; [| now left].
  destruct (shape_hit E hit me (Some sh)); [right; eauto | now left].
Qed.

(** Once a distance has been recorded, the loop keeps the closest
    candidate seen so far, the later one among equals. *)
Lemma checkBends_some hit me bs : forall i d r0 pre,
  (exists p1 p2, pre = p1 ++ (r0, d) :: p2 /\
                 Forall (fun c => (d <= c.2)%Q) p1 /\ Forall (fun c => (d < c.2)%Q) p2) ->
  closest_last (pre ++ qualifying E hit me (indexed_from i bs))
               (checkBends E hit me bs i (Some d) (Some r0)).
Proof.
  induction bs as [| b bs IH]; intros i d r0 pre Hinv; cbn [indexed_from checkBends].
  - change (qualifying E hit me []) with (@nil (Z * Q)). rewrite app_nil_r.
    destruct Hinv as (p1 & p2 & Hpre & H1 & H2). now exists p1, d, p2.
  - rewrite qualifying_cons.
    destruct (qualifying_one hit me i b) as [Hq | [c Hq]]; rewrite Hq.
    + rewrite (checkShape_miss _ _ _ _ _ Hq). simpl. now apply IH.
    + destruct (checkShape_hit hit me (Some d) i b c Hq) as [Hi ->].
      destruct Hinv as (p1 & p2 & -> & H1 & H2).
      replace ((p1 ++ (r0, d) :: p2) ++ [c] ++ qualifying E hit me (indexed_from (i + 1) bs))
        with (((p1 ++ (r0, d) :: p2) ++ [c]) ++ qualifying E hit me (indexed_from (i + 1) bs))
        by now rewrite <- !app_assoc.
      destruct c as [ci cd]. simpl in Hi. subst ci. simpl.
      destruct (Qle_bool cd d) eqn:Hle.
      * apply Qle_bool_iff in Hle.
        assert (Hall : Forall (fun c => (cd <= c.2)%Q) (p1 ++ (r0, d) :: p2)).
        { apply Forall_app. split; [| constructor].
          - eapply Forall_impl; [exact H1 |]. intros x Hx. simpl in *.
            eapply Qle_trans; eauto.
          - exact Hle.
          - eapply Forall_impl; [exact H2 |]. intros x Hx. simpl in *.
            apply Qlt_le_weak. eapply Qle_lt_trans; eauto. }
        apply IH.
        exists (p1 ++ (r0, d) :: p2), []. repeat split; [exact Hall | constructor].
      * assert (Hlt : (d < cd)%Q).
        { apply Qnot_le_lt. intros Hc. apply Qle_bool_iff in Hc. congruence. }
        assert (Hpost : Forall (fun c => (d < c.2)%Q) (p2 ++ [(i, cd)])).
        { apply Forall_app. split; [exact H2 | repeat constructor; exact Hlt]. }
        apply IH.
        exists p1, (p2 ++ [(i, cd)]). rewrite <- app_assoc. simpl. now repeat split.
Qed.

(** Before any distance has been recorded the result is kept until the
    first bend passes the guard. *)
Lemma checkBends_none hit me bs : forall i r,
  (qualifying E hit me (indexed_from i bs) = [] /\
   checkBends E hit me bs i None r = r) \/
  (qualifying E hit me (indexed_from i bs) <> [] /\
   closest_last (qualifying E hit me (indexed_from i bs)) (checkBends E hit me bs i None r)).
Proof.
  induction bs as [| b bs IH]; intros i r; cbn [indexed_from checkBends].
  - now left.
  - rewrite qualifying_cons.
    destruct (qualifying_one hit me i b) as [Hq | [c Hq]]; rewrite Hq.
    + rewrite (checkShape_miss _ _ _ _ _ Hq). simpl. apply IH.
    + right. split; [discriminate |].
      destruct (checkShape_hit hit me None i b c Hq) as [Hi ->].
      destruct c as [ci cd]. simpl in Hi. subst ci. simpl.
      apply (checkBends_some hit me bs (i + 1) cd i [(i, cd)]).
      exists [], []. repeat split; constructor.
Qed.

(** C9, as the code has it.  When the event does not come from the text
    of the edge label, the result is the handle of minimal squared centre
    distance among the label handle and the bends that pass the guard, the
    later-checked one among equals, and none when no handle passes.  When
    the event comes from the label text, the label handle is chosen
    without a distance: the result is then the closest of the bends that
    pass the guard, and the label handle only when no bend does. *)
Theorem getHandleForEvent_closest (h : mxEdgeHandler) (me : mxMouseEvent) :
  let hit := hit_rectangle E h me in
  let r := getHandleForEvent E h me in
  if me_isSource me (text (state h))
  then (qualifying E hit me (bend_handles h) = [] /\ r = Some (LABEL_HANDLE E)) \/
       (qualifying E hit me (bend_handles h) <> [] /\
        closest_last (qualifying E hit me (bend_handles h)) r)
  else closest_last (qualifying E hit me (checked_handles E h)) r.
Proof.
  intros hit r. subst r. unfold getHandleForEvent. fold hit.
  unfold checked_handles, bend_handles.
  destruct (me_isSource me (text (state h))).
  - destruct (bends (hnd h)) as [bs |]; simpl.
    + apply checkBends_none.
    + now left.
  - rewrite qualifying_cons.
    destruct (qualifying_one hit me (LABEL_HANDLE E) (labelShape (hnd h))) as [Hq | [c Hq]];
      rewrite Hq.
    + rewrite (checkShape_miss _ _ _ _ _ Hq). simpl.
      destruct (bends (hnd h)) as [bs |]; simpl; [| reflexivity].
      destruct (checkBends_none hit me bs 0 None) as [[H1 H2] | [_ H2]]; [| exact H2].
      now rewrite H1, H2.
    + destruct (checkShape_hit hit me None _ _ c Hq) as [Hi ->].
      destruct c as [ci cd]. simpl in Hi. subst ci. simpl.
      destruct (bends (hnd h)) as [bs |]; simpl.
      * apply (checkBends_some hit me bs 0 cd (LABEL_HANDLE E) [(LABEL_HANDLE E, cd)]).
        exists [], []. repeat split; constructor.
      * exists [], cd, []. repeat split; constructor.
Qed.

End Properties.

(** * The properties at concrete gestures *)

Lemma mouseUp_without_movement_witness :
  (getX (event_at 5 5 2) == startX (ses (this (world_of waypoint_drag model0))))%Q /\
  (getY (event_at 5 5 2) == startY (ses (this (world_of waypoint_drag model0))))%Q /\
  model (mouseUp env0 (event_at 5 5 2) (world_of waypoint_drag model0)).2 = model0 /\
  trace (mouseUp env0 (event_at 5 5 2) (world_of waypoint_drag model0)).2 = [].
Proof.
  split; [reflexivity |]. split; [reflexivity |].
  destruct (mouseUp_without_movement env0 (world_of waypoint_drag model0) (event_at 5 5 2))
    as (Hm & Ht & _); [reflexivity | reflexivity |].
  split; [exact Hm | exact Ht].
Defined.

Lemma commit_without_geometry_witness :
  getGeometry model_nogeo 4%positive = None /\
  changePoints env0 4%positive (Some []) (world_of waypoint_drag model_nogeo) =
  (Normal tt, log (Invoked OpChangePoints) (world_of waypoint_drag model_nogeo)).
Proof.
  split; [reflexivity |].
  apply (proj1 (proj2 (proj2 (commit_without_geometry env0 (world_of waypoint_drag model_nogeo))))).
  reflexivity.
Defined.

Lemma preview_requires_geometry_witness :
  getGeometry model_nogeo (es_cell (state waypoint_drag)) = None /\
  mouseMove env0 model_nogeo (event_at 9 9 2) waypoint_drag = (Throw TypeError, waypoint_drag).
Proof.
  split; [reflexivity |].
  apply (proj2 (proj2 (preview_requires_geometry env0 model_nogeo waypoint_drag))
           (event_at 9 9 2) 1%Z idle_marker); reflexivity.
Defined.

(** C9 fails as stated: the pointer at (17, 10) is on the label text; the
    label handle passes the guard at squared distance 4, the bend at 6.25,
    and the bend is returned. *)
Lemma getHandleForEvent_label_text_counterexample :
  getHandleForEvent env0 label_text_handler (event_at 17 10 100) = Some 0%Z /\
  ~ closest_last
      (qualifying env0 (hit_rectangle env0 label_text_handler (event_at 17 10 100))
         (event_at 17 10 100) (checked_handles env0 label_text_handler))
      (getHandleForEvent env0 label_text_handler (event_at 17 10 100)).
Proof.
  split; [vm_compute; reflexivity |].
  intros (pre & d & post & Heq & Hpre & Hpost).
  vm_compute in Heq.
  destruct pre as [| x [| y pre]].
  - discriminate Heq.
  - injection Heq as <- <- _. inversion Hpre as [| ? ? Hle _]; subst.
    vm_compute in Hle. now apply Hle.
  - injection Heq as _ _ Hrest. now destruct pre.
Qed.

Lemma dangling_endpoint_validation_witness :
  isSource (ses source_drag) || isTarget (ses source_drag) = true /\
  (updatePreviewState env0 state0 (MkPoint 3 3) None source_drag).2 =
    set_ses (ses_error (Some "")) source_drag /\
  trace (mouseUp env0 (event_at 9 9 1)
           (world_of (set_ses (ses_error (Some "")) source_drag) model0)).2 = [].
Proof.
  split; [reflexivity |]. split.
  - destruct (proj1 (dangling_endpoint_validation env0) source_drag state0 (MkPoint 3 3)
                idle_marker idle_constraints) as [e He]; [reflexivity .. |].
    now rewrite He.
  - apply (proj2 (dangling_endpoint_validation env0)
             (world_of (set_ses (ses_error (Some "")) source_drag) model0) (event_at 9 9 1)).
    reflexivity.
Defined.



(** C4 fails as stated: the marker has found the vertex 5, the constraint
    handler has a constraint and its focus on the terminal 3, and the
    state returned is that of the vertex 5. *)
Lemma getPreviewTerminalState_focus_counterexample :
  let h1 := (updateAndProcess env_focus model0 (event_at 9 9 1) source_drag).2 in
  let r := getPreviewTerminalState env_focus model0 (event_at 9 9 1) source_drag in
  (validState <$> marker h1) = Some (Some (MkState 5%positive (MkPoint 0 0))) /\
  (currentFocus <$> constraintHandler h1) = Some (Some (MkState 3%positive (MkPoint 0 0))) /\
  (currentConstraint <$> constraintHandler h1) = Some (Some default_constraint) /\
  r.1 = Normal (Some (MkState 5%positive (MkPoint 0 0))) /\
  Some r.1 <> (Normal <$> (currentFocus <$> constraintHandler h1)).
Proof.
  vm_compute. repeat split; try reflexivity. intros [=].
Qed.

Lemma getPreviewTerminalState_returns_marked_witness :
  getPreviewTerminalState env_focus model0 (event_at 9 9 1) source_drag =
  (Normal (Some (MkState 5%positive (MkPoint 0 0))),
   set_marker (Some (MkMarker None None))
     (updateAndProcess env_focus model0 (event_at 9 9 1) source_drag).2).
Proof.
  apply (getPreviewTerminalState_returns_marked env_focus model0 (event_at 9 9 1) source_drag
           (updateAndProcess env_focus model0 (event_at 9 9 1) source_drag).2
           (MkMarker (Some (MkState 5%positive (MkPoint 0 0)))
                     (Some (MkState 5%positive (MkPoint 0 0))))
           (MkConstraintHandler (Some (MkState 3%positive (MkPoint 0 0)))
                                (Some default_constraint))
           (MkState 3%positive (MkPoint 0 0)) default_constraint); reflexivity.
Defined.

(** C2 fails as stated: [changePoints] replaces the geometry of the edge
    by a [setGeometry] that no [beginUpdate] precedes and no [endUpdate]
    follows. *)
Lemma changePoints_unbracketed_counterexample :
  let w' := (changePoints env0 4%positive (Some []) (world_of waypoint_drag model0)).2 in
  getGeometry (model w') 4%positive <> getGeometry model0 4%positive /\
  existsb is_mutation (trace w') = true /\
  existsb is_bracket (trace w') = false /\
  mutations_bracketed 0 (trace w') = false.
Proof.
  vm_compute. repeat split; try reflexivity. intros [=].
Qed.

Lemma connect_clone_witness :
  exists clone w',
    connect env0 4%positive 5%positive true true (world_of source_drag model0) =
      (Normal clone, w') /\
    clone <> 4%positive /\
    getTerminal (model w') clone false = Some 3%positive /\
    getTerminal (model w') clone true = Some 5%positive /\
    getGeometry (model w') 4%positive = Some geometry0.
Proof.
  destruct (connect_clone env0 (world_of source_drag model0) 4%positive 5%positive true
              (MkCell (Some geometry0) (Some 1%positive) (Some 2%positive) (Some 3%positive) [])
              idle_constraints)
    as (clone & w' & Hrun & Hne & _ & (y & Hy & _ & _ & Hun & Hdr) & _ & Hgeo).
  - intros c m. reflexivity.
  - reflexivity.
  - intros p [= <-]. now eexists.
  - reflexivity.
  - exists clone, w'. unfold getTerminal. rewrite Hy.
    repeat split; [exact Hrun | exact Hne | exact Hun | exact Hdr | exact Hgeo].
Defined.

Lemma waypoint_drag_commit_witness :
  exists previewed h',
    mouseMove env0 model0 (event_at 13 17 2) waypoint_drag = (Normal tt, h') /\
    points (ses h') = Some previewed /\
    js_array_get previewed 0 =
      Some (convertPoint env0 model0 waypoint_drag
              (getPointForEvent env0 waypoint_drag (event_at 13 17 2)) false) /\
    js_array_get previewed 1 = Some (MkPoint 20 10) /\
    gpoints <$> getGeometry
      (model (mouseUp env0 (event_at 13 17 2) (MkWorld h' model0 0 [])).2) 4%positive =
    Some (Some previewed).
Proof.
  destruct (waypoint_drag_commit env0 model0 waypoint_drag (event_at 13 17 2) 1%Z geometry0
              idle_marker idle_constraints SelectionColor)
    as (previewed & h' & Hmove & Hpts & (Hi & Ho & _ & _) & Hup);
    [reflexivity | lia | reflexivity .. |].
  exists previewed, h'. split; [exact Hmove |]. split; [exact Hpts |].
  split; [exact Hi |]. split; [rewrite (Ho 1%Z) by lia; reflexivity |].
  specialize (Hup (event_at 13 17 2) 0%nat [] eq_refl eq_refl).
  change (es_cell (state waypoint_drag)) with 4%positive in Hup.
  now rewrite Hup.
Defined.

(** ** Whole gestures *)

(** Dragging the handle of the first waypoint from (10, 10) to (13, 17):
    the point snaps to the routing centre 12 of the target on the x axis
    and replaces the first waypoint of the geometry. *)
Example gesture_moves_waypoint :
  let r := gesture env0 (event_at 10 10 2) (event_at 13 17 2) (event_at 13 17 2)
             idle_handler model0 in
  r.1 = Normal tt /\
  gpoints <$> getGeometry (model r.2) 4%positive =
    Some (Some [Some (MkPoint 12 17); Some (MkPoint 20 10)]) /\
  existsb is_bracket (trace r.2) = false.
Proof. vm_compute. repeat split. Qed.

(** Dragging the source handle onto the vertex 5 with the clone modifier:
    the edge 4 keeps its terminals and the clone 6 runs from 5 to 3. *)
Example gesture_reconnects_clone :
  let r := gesture env_over_vertex (event_at 0 10 1) (event_at 40 40 1) (event_at 40 40 1)
             idle_handler model0 in
  r.1 = Normal tt /\
  trace r.2 =
    [Invoked OpConnect; BeginUpdate; CloneCell 4 6; ModelAdd (Some 1%positive) 6 4;
     ConnectCell 6 (Some 3%positive) false None;
     ConnectCell 6 (Some 5%positive) true (Some default_constraint);
     EndUpdate; SetSelectionCell 6] /\
  model r.2 !! 4%positive = model0 !! 4%positive /\
  getTerminal (model r.2) 6%positive true = Some 5%positive /\
  getTerminal (model r.2) 6%positive false = Some 3%positive.
Proof. vm_compute. repeat split. Qed.

(** When [connectCell] throws, [mouseUp] throws, and [endUpdate] has been
    called all the same. *)
Example gesture_failure_releases :
  let r := gesture env_failing (event_at 0 10 1) (event_at 40 40 1) (event_at 40 40 1)
             idle_handler model0 in
  r.1 = Throw (ModelFailure (ConnectCell 6 (Some 3%positive) false None)) /\
  trace r.2 =
    [Invoked OpConnect; BeginUpdate; CloneCell 4 6; ModelAdd (Some 1%positive) 6 4;
     ConnectCell 6 (Some 3%positive) false None; EndUpdate] /\
  updateLevel r.2 = 0%nat.
Proof. vm_compute. repeat split. Qed.

(** Dragging the source handle into empty space when dangling edges are
    not allowed: the move leaves the empty-string error, and the
    pointer-up neither alerts nor changes the model. *)
Example gesture_dangling_rejected :
  let h := (liftH (fun m => mouseMove env0 m (event_at 40 40 1))
              (mouseDown env0 (event_at 0 10 1) (world_of idle_handler model0)).2).2 in
  let r := gesture env0 (event_at 0 10 1) (event_at 40 40 1) (event_at 40 40 1)
             idle_handler model0 in
  error (ses (this h)) = Some "" /\
  r.1 = Normal tt /\ trace r.2 = [] /\ model r.2 = model0.
Proof. vm_compute. repeat split. Qed.

(** The same drag when dangling edges are allowed: the terminal point is
    stored and the source is disconnected, inside one transaction. *)
Example gesture_dangling_accepted :
  let r := gesture env_dangling (event_at 0 10 1) (event_at 40 40 1) (event_at 40 40 1)
             idle_handler model0 in
  r.1 = Normal tt /\
  map is_bracket (trace r.2) = [false; true; false; false; true] /\
  getTerminal (model r.2) 4%positive true = None /\
  (gsourcePoint <$> getGeometry (model r.2) 4%positive) = Some (Some (MkPoint 40 40)).
Proof. vm_compute. repeat split. Qed.

(** A drag that comes back to the anchor commits nothing. *)
Example gesture_back_to_anchor :
  let r := gesture env0 (event_at 10 10 2) (event_at 13 17 2) (event_at 10 10 2)
             idle_handler model0 in
  r.1 = Normal tt /\ trace r.2 = [] /\ model r.2 = model0.
Proof. vm_compute. repeat split. Qed.

(** ** Doubles *)

(** The quotients 1 / 0.4 and 0.25 / 0.1 are both the double 2.5, which
    [Math.round] takes to 3, although the exact quotients of those
    doubles lie below 2.5; and (860 - 1575) / 1.1 * 1.1 + 1575 is not
    860. *)
Example doubles_round_quotients :
  fl (1 # 10) = 3602879701896397 # 36028797018963968 /\
  Math_round (num_div 1 (fl (2 # 5))) = 3%Q /\
  Math_round (num_div (1 # 4) (fl (1 # 10))) = 3%Q /\
  (1 / fl (2 # 5) < 5 # 2)%Q /\
  fl (fl (num_div (num_sub 860 1575) (fl (11 # 10)) * fl (11 # 10)) + 1575) =
    7564639999098879 # 8796093022208.
Proof. vm_compute. repeat split. Qed.

(** * Further properties of the handler *)

Lemma se_bind_inv {S A B} (m : SE S A) (k : A -> SE S B) s r s' :
  se_bind m k s = (r, s') ->
  (exists e, m s = (Throw e, s') /\ r = Throw e) \/
  (exists a s1, m s = (Normal a, s1) /\ k a s1 = (r, s')).
Proof.
  unfold se_bind. destruct (m s) as [[a | e] s1]; intros Hk.
  - right. eauto.
  - left. injection Hk as <- <-. eauto.
Qed.

(** After an assignment to the state, the rest of the computation. *)
Lemma bind_modify_post {S A} (R : S -> S -> Prop) (f : S -> S) (k : SE S A) (s : S) :
  stable R k -> R (f s) (se_bind (se_modify f) (fun _ => k) s).2.
Proof. intros Hk. unfold se_bind, se_modify. apply Hk. Qed.

Section MoreProperties.

Variable E : Env.

(** ** Tearing down *)

(** X1. [destroy] is idempotent, and a destroyed handler ignores pointer
    moves and pointer-ups: they return normally and change nothing,
    whatever gesture was in progress. *)
Theorem destroy_idempotent_inert (h : mxEdgeHandler) :
  destroy (destroy h) = destroy h /\
  (forall mdl me, mouseMove E mdl me (destroy h) = (Normal tt, destroy h)) /\
  (forall me mdl l tr,
     mouseUp E me (MkWorld (destroy h) mdl l tr) = (Normal tt, MkWorld (destroy h) mdl l tr)).
Proof.
  split; [reflexivity | split].
  - intros mdl me. unfold mouseMove, se_bind, se_get. cbn [destroy marker ses].
    now destruct (index (ses h)).
  - intros me mdl l tr. unfold mouseUp, se_bind, se_get. cbn [this destroy marker ses].
    now destruct (index (ses h)).
Qed.

(** ** Arming a gesture *)

(** X2. For an endpoint handle (index 0 or the last bend) [start] arms the
    gesture exactly when [getHandleFillColor] does not paint that handle
    as locked; a locked endpoint leaves the handle index as it was. *)
Theorem start_arms_unlocked (mdl : gmap cell mxCell) (h : mxEdgeHandler) (x y : Q) (idx : Z)
    (bs : jsarray mxShape) :
  bends (hnd h) = Some bs ->
  idx = 0%Z \/ idx = (Z.of_nat (length bs) - 1)%Z ->
  (start E mdl x y idx h).1 = Normal tt /\
  index (ses (start E mdl x y idx h).2) =
    match getHandleFillColor E mdl h idx with
    | LOCKED_HANDLE_FILLCOLOR => index (ses h)
    | _ => Some idx
    end.
Proof.
  intros Hb Hend. unfold start, getHandleFillColor, se_bind, se_get. rewrite Hb.
  assert (Hor : (idx =? 0)%Z || (idx =? Z.of_nat (length bs) - 1)%Z = true).
  { destruct Hend as [-> | ->]; [reflexivity |]. rewrite Z.eqb_refl. apply orb_true_r. }
  cbn [se_modify]. rewrite Hor.
  destruct (getTerminal mdl (es_cell (state h)) (idx =? 0)%Z) as [t |].
  - destruct (isCellDisconnectable E (es_cell (state h)) t (idx =? 0)%Z); now cbn.
  - destruct (isTerminalPointMovable E (es_cell (state h)) (idx =? 0)%Z); now cbn.
Qed.

(** X3. A pointer-down without the shift modifier calls no collaborator
    and changes no cell: at most it arms a gesture. *)
Theorem mouseDown_without_shift (w : World) (me : mxMouseEvent) :
  isShiftDown me = false ->
  model (mouseDown E me w).2 = model w /\
  trace (mouseDown E me w).2 = trace w /\
  updateLevel (mouseDown E me w).2 = updateLevel w.
Proof.
  intros Hs. unfold mouseDown, se_bind, se_get. rewrite Hs, !andb_false_r.
  destruct (getHandleForEvent E (this w) me) as [hd |]; [| now cbn].
  destruct (negb (isConsumed me) && isEnabled E); [| now cbn].
  cbn [when_].
  destruct (negb (hd =? LABEL_HANDLE E)%Z || isLabelMovable E (me_cell me)); [| now cbn].
  cbn [when_].
  destruct (liftH_frame (fun mdl => start E mdl (getX me) (getY me) hd) w) as (Hm & Ht & Hl & _).
  auto.
Qed.

(** ** Hit testing *)

Lemma checkBends_in_range hit me bs : forall i m r0 r,
  checkBends E hit me bs i m r0 = Some r ->
  r0 = Some r \/
  ((i <= r < i + Z.of_nat (length bs))%Z /\
   exists b, bs !! Z.to_nat (r - i) = Some b /\ shape_hit E hit me b = true).
Proof.
  induction bs as [| b bs IH]; intros i m r0 r; cbn [checkBends].
  - intros ->. now left.
  - destruct (checkShape E hit me m b) as [ok m'] eqn:Hc. intros Hr.
    apply IH in Hr. destruct Hr as [Hr | (Hrange & b' & Hb' & Hhit)].
    + destruct ok; [| now left].
      injection Hr as <-. right. split; [cbn [length]; lia |].
      exists b. rewrite Z.sub_diag. split; [reflexivity |].
      unfold checkShape in Hc. destruct b as [sh |]; [| discriminate].
      destruct (shape_hit E hit me (Some sh)); [reflexivity | discriminate].
    + right. split; [cbn [length]; lia |].
      exists b'. split; [| exact Hhit].
      replace (Z.to_nat (r - i)) with (S (Z.to_nat (r - (i + 1)))) by lia. exact Hb'.
Qed.

(** X4. What [getHandleForEvent] returns is either the label handle, and
    then the event comes from the label text or the label handle passes
    the guard of [checkShape], or the index of an existing bend that
    passes the guard: a null, hidden or missed handle is never returned. *)
Theorem getHandleForEvent_in_range (h : mxEdgeHandler) (me : mxMouseEvent) (r : Z) :
  getHandleForEvent E h me = Some r ->
  (r = LABEL_HANDLE E /\
   (me_isSource me (text (state h)) = true \/
    shape_hit E (hit_rectangle E h me) me (labelShape (hnd h)) = true)) \/
  (exists bs b,
     bends (hnd h) = Some bs /\ (0 <= r < Z.of_nat (length bs))%Z /\
     bs !! Z.to_nat r = Some b /\ shape_hit E (hit_rectangle E h me) me b = true).
Proof.
  unfold getHandleForEvent. set (hit := hit_rectangle E h me).
  assert (Hlab : forall lab m0,
            (if me_isSource me (text (state h)) then (true, None)
             else checkShape E hit me None (labelShape (hnd h))) = (lab, m0) ->
            lab = true ->
            me_isSource me (text (state h)) = true \/
            shape_hit E hit me (labelShape (hnd h)) = true).
  { intros lab m0 Hl ->. destruct (me_isSource me (text (state h))); [now left | right].
    unfold checkShape in Hl. destruct (labelShape (hnd h)) as [sh |]; [| discriminate].
    destruct (shape_hit E hit me (Some sh)); [reflexivity | discriminate]. }
  destruct (if me_isSource me (text (state h)) then (true, None)
            else checkShape E hit me None (labelShape (hnd h))) as [lab m0].
  specialize (Hlab lab m0 eq_refl).
  destruct (bends (hnd h)) as [bs |].
  - intros Hr. apply checkBends_in_range in Hr.
    destruct Hr as [Hr | (Hrange & b & Hb & Hhit)].
    + destruct lab; [| discriminate]. injection Hr as <-. left. split; [reflexivity | auto].
    + right. exists bs, b. rewrite Z.sub_0_r in Hb. repeat split; try assumption; lia.
  - intros Hr. destruct lab; [| discriminate]. injection Hr as <-.
    left. split; [reflexivity | auto].
Qed.

(** ** The marker *)

(** X5. The cell the marker of [createMarker] proposes as a terminal is
    never the edge being handled, and it is never an edge at all unless
    the graph has connectable edges. *)
Theorem marker_getCell_not_self (h : mxEdgeHandler) (me : mxMouseEvent) (c : cell) :
  marker_getCell E h me = Some c ->
  c <> es_cell (state h) /\ (connectableEdges E = false -> isEdge E c = false).
Proof.
  unfold marker_getCell.
  set (point := getPointForEvent E h me).
  set (c0 := if _ : bool then _ else marker_baseGetCell E me).
  destruct (isSwimlane E c0 && hitsSwimlaneContent E c0 (px point) (py point)); [discriminate |].
  cbn [negb orb].
  destruct (bool_decide (c0 = Some (es_cell (state h)))) eqn:Hself; [discriminate |].
  apply bool_decide_eq_false in Hself. cbn [orb].
  destruct c0 as [x |]; [| now destruct (isAncestor E _ _)].
  destruct (negb (connectableEdges E) && isEdge E x) eqn:Hedge; [discriminate |].
  cbn [orb]. destruct (isAncestor E _ _); [discriminate |].
  intros [= <-]. split; [congruence |].
  intros Hc. rewrite Hc in Hedge. exact Hedge.
Qed.

(** ** Pointer conversion *)

(** X6. The point [getPointForEvent] returns depends on the handler only
    through its switches and its edge state: neither the absolute points
    of the preview nor the index of the dragged handle has any influence
    on it. *)
Theorem getPointForEvent_ignores_abspoints (h h' : mxEdgeHandler) (me : mxMouseEvent) :
  cfg h' = cfg h -> state h' = state h ->
  getPointForEvent E h' me = getPointForEvent E h me.
Proof.
  intros Hc Hs. unfold getPointForEvent, snapPhase, snapTerminals. rewrite Hc, Hs.
  destruct (snapToTerminals (cfg h) && Qlt_bool 0 (getSnapToTerminalTolerance E));
    [| reflexivity].
  destruct (abspoints (hnd h')), (abspoints (hnd h)); now rewrite ?snapToAbspoints_skips.
Qed.

(** ** Frames of the drawing code *)

Lemma same_gesture_refl h : same_gesture h h.
Proof. now repeat split. Qed.

Lemma same_gesture_trans h1 h2 h3 :
  same_gesture h1 h2 -> same_gesture h2 h3 -> same_gesture h1 h3.
Proof. unfold same_gesture. intros (?&?&?&?&?&?) (?&?&?&?&?&?). repeat split; congruence. Qed.

Lemma same_preview_refl h : same_preview h h.
Proof. now repeat split. Qed.

Lemma same_preview_trans h1 h2 h3 :
  same_preview h1 h2 -> same_preview h2 h3 -> same_preview h1 h3.
Proof. unfold same_preview. intros (?&?&?) (?&?&?). repeat split; congruence. Qed.

Ltac same_gesture_tac :=
  intros;
  repeat (first
    [ assumption
    | apply stable_modify; intros ?; now repeat split
    | stable_step same_gesture_refl same_gesture_trans ]).

Ltac same_preview_tac :=
  intros;
  repeat (first
    [ assumption
    | apply stable_modify; intros ?; now repeat split
    | stable_step same_preview_refl same_preview_trans ]).

Lemma place_bend_same_gesture i p b : stable same_gesture (place_bend i p b).
Proof. unfold place_bend. same_gesture_tac. Qed.

Lemma drawPreview_same_gesture : stable same_gesture (drawPreview E).
Proof. unfold drawPreview. same_gesture_tac. Qed.

Lemma redraw_same_gesture mdl : stable same_gesture (redraw E mdl).
Proof.
  pose proof place_bend_same_gesture. pose proof drawPreview_same_gesture.
  unfold redraw, redrawHandles, redrawInnerBends. same_gesture_tac.
Qed.

Lemma place_bend_same_preview i p b : stable same_preview (place_bend i p b).
Proof. unfold place_bend. same_preview_tac. Qed.

Lemma drawPreview_same_preview : stable same_preview (drawPreview E).
Proof. unfold drawPreview. same_preview_tac. Qed.

(** ** Resetting *)

Lemma reset_same_gesture (mdl : gmap cell mxCell) (h : mxEdgeHandler) :
  same_gesture (set_ses ses_reset h) (reset E mdl h).2.
Proof.
  unfold reset. apply (bind_modify_post same_gesture).
  pose proof (redraw_same_gesture mdl).
  unfold setPreviewColor. same_gesture_tac.
Qed.

(** X7. Whatever its outcome, [reset] leaves the handler idle: no handle
    index, no validation error, no endpoint or label flag and no active
    preview, so that the next pointer move or pointer-up is ignored. *)
Theorem reset_clears_gesture (mdl : gmap cell mxCell) (h : mxEdgeHandler) :
  let h' := (reset E mdl h).2 in
  index (ses h') = None /\ error (ses h') = None /\
  isSource (ses h') = false /\ isTarget (ses h') = false /\ isLabel (ses h') = false /\
  active (ses h') = false /\
  (forall me, mouseMove E mdl me h' = (Normal tt, h')).
Proof.
  intros h'.
  pose proof (reset_same_gesture mdl h) as Hrest. fold h' in Hrest.
  destruct Hrest as (Hi & He & Hs & Ht & Hl & Ha). cbn in Hi, He, Hs, Ht, Hl, Ha.
  repeat split; try assumption.
  intros me. unfold mouseMove, se_bind, se_get. now rewrite Hi.
Qed.

Lemma redrawHandles_post (h : mxEdgeHandler) :
  let h' := (redrawHandles E h).2 in
  label (hnd h') = Some (absoluteOffset (state h)) /\
  abspoints (hnd h') = abspoints (hnd h) /\ shape (hnd h') = shape (hnd h).
Proof.
  intros h'. subst h'. unfold redrawHandles. unfold se_bind at 1, se_get at 1.
  match goal with |- context [se_bind (se_modify ?f) (fun _ => ?k) h] =>
    assert (Hp : same_preview (f h) (se_bind (se_modify f) (fun _ => k) h).2)
  end.
  { apply (bind_modify_post same_preview).
    pose proof place_bend_same_preview. unfold redrawInnerBends. same_preview_tac. }
  destruct Hp as (Ha & Hl & Hs).
  refine (conj _ (conj _ _)); (etransitivity; [eassumption | reflexivity]).
Qed.

Lemma redraw_post (mdl : gmap cell mxCell) (h h' : mxEdgeHandler) :
  redraw E mdl h = (Normal tt, h') ->
  abspoints (hnd h') = absolutePoints (state h) /\
  label (hnd h') = Some (absoluteOffset (state h)) /\
  shape (hnd h') = shape (hnd h).
Proof.
  unfold redraw. unfold se_bind at 1, se_get at 1.
  destruct (absolutePoints (state h)) as [ap |] eqn:Hap; [| discriminate].
  cbn [deref]. unfold se_bind at 1, se_ret at 1. unfold se_bind at 1, se_modify at 1.
  set (h1 := set_hnd (hnd_abspoints (Some ap)) h).
  intros Hrun. apply se_bind_inv in Hrun.
  destruct Hrun as [(e & _ & [=]) | ([] & h2 & Hrh & Htail)].
  pose proof (redrawHandles_post h1) as Hpost. rewrite Hrh in Hpost.
  destruct Hpost as (Hl & Ha & Hs).
  match type of Htail with ?k ?x = _ =>
    assert (Hst : stable same_preview k)
  end.
  { pose proof drawPreview_same_preview. same_preview_tac. }
  specialize (Hst h2). rewrite Htail in Hst. destruct Hst as (Ha' & Hl' & Hs').
  cbn [snd] in *. rewrite Ha', Hl', Hs', Ha, Hl, Hs. now subst h1.
Qed.

(** X8. When [reset] returns, the preview is discarded: the handler draws
    from the absolute points of the edge state again, the label handle is
    back on the label position of the state, and the preview shape has
    the selection colour. *)
Theorem reset_restores_preview (mdl : gmap cell mxCell) (h h' : mxEdgeHandler) :
  reset E mdl h = (Normal tt, h') ->
  abspoints (hnd h') = absolutePoints (state h) /\
  label (hnd h') = Some (absoluteOffset (state h)) /\
  shape (hnd h') = (fun _ => SelectionColor) <$> shape (hnd h).
Proof.
  unfold reset, setPreviewColor, se_bind, se_modify, se_get.
  cbn [set_hnd set_ses marker constraintHandler].
  destruct (marker h) as [m |]; [| intros [=]]. cbn [deref se_ret].
  destruct (constraintHandler h) as [ch |]; [| intros [=]]. cbn [deref se_ret].
  set (h1 := set_hnd _ _).
  destruct (redraw E mdl h1) as [[[] | e] h2] eqn:Hr; [| intros [=]].
  intros [= <-]. apply redraw_post in Hr. destruct Hr as (Ha & Hl & Hs).
  rewrite Ha, Hl, Hs. subst h1. cbn.
  repeat split. destruct (shape (hnd h)) eqn:Hsh; cbn; [reflexivity | exact Hsh].
Qed.

(** ** Null dereferences *)

Lemma TypeError_ret {S A} (a : A) : throws_TypeError_only (@se_ret S A a).
Proof. intros s e [=]. Qed.

Lemma TypeError_get {S} : throws_TypeError_only (@se_get S).
Proof. intros s e [=]. Qed.

Lemma TypeError_modify {S} (f : S -> S) : throws_TypeError_only (se_modify f).
Proof. intros s e [=]. Qed.

Lemma TypeError_deref {S A} (o : option A) : throws_TypeError_only (@deref S A o).
Proof. destruct o; intros s e Hthrow; now inversion Hthrow. Qed.

Lemma TypeError_bind {S A B} (m : SE S A) (k : A -> SE S B) :
  throws_TypeError_only m -> (forall a, throws_TypeError_only (k a)) ->
  throws_TypeError_only (se_bind m k).
Proof.
  intros Hm Hk s e. unfold se_bind. specialize (Hm s).
  destruct (m s) as [[a | e'] s1]; cbn [fst] in *.
  - apply Hk.
  - intros [= <-]. now apply Hm.
Qed.

Lemma TypeError_when {S} b (m : SE S unit) :
  throws_TypeError_only m -> throws_TypeError_only (when_ b m).
Proof. destruct b; [trivial | intros _; apply TypeError_ret]. Qed.

Lemma TypeError_for_range {S} lo hi (body : Z -> SE S unit) :
  (forall i, throws_TypeError_only (body i)) -> throws_TypeError_only (for_range lo hi body).
Proof.
  intros Hb. unfold for_range. induction (seqZ lo (hi - lo)) as [| i l IH]; cbn [foldr].
  - apply TypeError_ret.
  - apply TypeError_bind; [apply Hb | intros _; exact IH].
Qed.

Ltac TypeError_tac :=
  intros;
  repeat (first
    [ assumption
    | apply TypeError_ret | apply TypeError_get | apply TypeError_modify
    | apply TypeError_deref
    | apply TypeError_bind; [| intros ?]
    | apply TypeError_when
    | apply TypeError_for_range; intros ?
    | match goal with
      | |- throws_TypeError_only (match ?x with _ => _ end) => destruct x
      end ]).

Lemma redrawHandles_TypeError : throws_TypeError_only (redrawHandles E).
Proof. unfold redrawHandles, redrawInnerBends, place_bend. TypeError_tac. Qed.

(** X9. [redraw] reads [g.points] without a null test: for an edge
    without geometry [redraw] and [reset] always throw a TypeError, and
    so does the pointer-up of an armed gesture that ends on its anchor,
    although it commits nothing. *)
Theorem redraw_requires_geometry (mdl : gmap cell mxCell) (h : mxEdgeHandler) :
  getGeometry mdl (es_cell (state h)) = None ->
  (redraw E mdl h).1 = Throw TypeError /\
  (reset E mdl h).1 = Throw TypeError /\
  (forall me l tr i m,
     index (ses h) = Some i -> marker h = Some m -> moved h me = false ->
     (mouseUp E me (MkWorld h mdl l tr)).1 = Throw TypeError).
Proof.
  intros Hg.
  assert (Hredraw : forall h0, state h0 = state h -> (redraw E mdl h0).1 = Throw TypeError).
  { intros h0 Hst. unfold redraw. unfold se_bind at 1, se_get at 1.
    destruct (absolutePoints (state h0)) as [ap |]; [| reflexivity].
    cbn [deref]. unfold se_bind at 1, se_ret at 1. unfold se_bind at 1, se_modify at 1.
    unfold se_bind at 1.
    pose proof (redrawHandles_TypeError (set_hnd (hnd_abspoints (Some ap)) h0)) as Hte.
    destruct (redrawHandles E _) as [[[] | e] h2]; cbn [fst] in *.
    - unfold se_bind at 1. rewrite Hst, Hg. reflexivity.
    - now rewrite (Hte e eq_refl). }
  assert (Hreset : (reset E mdl h).1 = Throw TypeError).
  { unfold reset, setPreviewColor, se_bind, se_modify, se_get.
    cbn [set_hnd set_ses marker constraintHandler].
    destruct (marker h) as [m |]; [| reflexivity]. cbn [deref se_ret].
    destruct (constraintHandler h) as [ch |]; [| reflexivity]. cbn [deref se_ret].
    match goal with |- context [redraw E mdl ?x] =>
      pose proof (Hredraw x eq_refl) as Hr; destruct (redraw E mdl x) as [[[] | e] h2]
    end; [discriminate Hr | exact Hr]. }
  split; [now apply Hredraw | split; [exact Hreset |]].
  intros me l tr i m Hi Hm Hmv.
  rewrite (mouseUp_quiet E (MkWorld h mdl l tr) me (or_introl Hmv)).
  cbn [this]. rewrite Hi, Hm. unfold se_bind, liftH. cbn [model this].
  destruct (reset E mdl h) as [[[] | e] h2]; cbn [fst] in *; [discriminate Hreset |].
  now injection Hreset as ->.
Qed.

(** ** Adding and removing waypoints *)

(** X10. [removePoint] only removes interior waypoints: for the source
    handle, the label handle or any index up to 0, for the last absolute
    point or an index beyond it, and for an edge without geometry or
    without waypoints it returns normally and calls no collaborator. *)
Theorem removePoint_bounds (w : World) (st : mxEdgeState) (idx : Z) :
  ((idx <= 0)%Z ->
   removePoint E st idx w = (Normal tt, log (Invoked OpRemovePoint) w)) /\
  (forall a, abspoints (hnd (this w)) = Some a -> (Z.of_nat (length a) - 1 <= idx)%Z ->
   removePoint E st idx w = (Normal tt, log (Invoked OpRemovePoint) w)) /\
  (forall a, abspoints (hnd (this w)) = Some a ->
   getGeometry (model w) (es_cell (state (this w))) ≫= gpoints = None ->
   removePoint E st idx w = (Normal tt, log (Invoked OpRemovePoint) w)).
Proof.
  unfold removePoint, entered, se_bind, se_modify, se_get. cbn [log this model].
  split; [| split].
  - intros Hi. destruct (Z.ltb_spec 0 idx); [lia | reflexivity].
  - intros a Ha Hi. rewrite Ha. cbn [deref se_ret].
    destruct (0 <? idx)%Z; [| reflexivity].
    destruct (Z.ltb_spec idx (Z.of_nat (length a) - 1)); [lia | reflexivity].
  - intros a Ha Hg. rewrite Ha. cbn [deref se_ret].
    destruct (0 <? idx)%Z; [| reflexivity].
    destruct (idx <? Z.of_nat (length a) - 1)%Z; [| reflexivity].
    destruct (getGeometry (model w) (es_cell (state (this w)))) as [g |]; [| reflexivity].
    cbn in Hg. now rewrite Hg.
Qed.

Lemma js_splice_insert_remove {A} (ps : jsarray A) (k : Z) (v : A) :
  (0 <= k <= Z.of_nat (length ps))%Z ->
  js_splice_remove (js_splice_insert ps k v) k = ps.
Proof.
  intros Hk. unfold js_splice_remove, js_splice_insert, js_splice_pos.
  destruct (Z.ltb_spec k 0); [lia |].
  rewrite !length_app, length_take. cbn [length]. rewrite length_drop.
  set (p := Z.to_nat k).
  assert (Hp : (p <= length ps)%nat) by lia.
  assert (Hlen : length (take p ps) = p) by (rewrite length_take; lia).
  rewrite (Nat.min_l p (length ps)) by exact Hp.
  rewrite (Nat.min_l p) by lia.
  rewrite take_app_length' by (symmetry; exact Hlen).
  rewrite drop_app_ge by lia. rewrite Hlen.
  replace (S p - p)%nat with 1%nat by lia. cbn [drop].
  rewrite drop_0. apply take_drop.
Qed.

(** The tail of [addPointAt] and [removePoint] after the model call. *)
Lemma rebuild_same_model :
  stable same_model
    (se_modify (fun w => set_this (destroy (this w)) w) ;; liftH (init E)).
Proof.
  apply (stable_bind _ same_model_trans).
  - apply stable_modify. intros w. reflexivity.
  - intros _. apply liftH_same_model.
Qed.

Lemma set_geometry_then_rebuild (w : World) (c : cell) (g : mxGeometry) :
  throws E (SetGeometry c g) (model w) = false ->
  model ((call E (SetGeometry c g) ;;
          se_modify (fun w => set_this (destroy (this w)) w) ;; liftH (init E)) w).2 =
  alter (cell_set_geometry (Some g)) c (model w).
Proof.
  intros Ht. unfold se_bind at 1. unfold call. cbn [log model]. rewrite Ht.
  match goal with |- model (?k ?x).2 = _ =>
    pose proof (rebuild_same_model x) as Hs end.
  unfold same_model in Hs. rewrite Hs. reflexivity.
Qed.

Lemma getGeometry_alter (mdl : gmap cell mxCell) (c : cell) (g g0 : mxGeometry) :
  getGeometry mdl c = Some g0 ->
  getGeometry (alter (cell_set_geometry (Some g)) c mdl) c = Some g.
Proof.
  unfold getGeometry. rewrite lookup_alter_eq.
  destruct (mdl !! c); [reflexivity | discriminate].
Qed.

(** X11. For an edge with a list of waypoints, when no call fails and
    [findNearestSegment] returns a position [k] inside that list (from 0
    to its length), [addPointAt] inserts the new point at position [k],
    and [removePoint] at the handle [k + 1] of the refreshed handler (an
    interior handle) gives the edge its former geometry back.  For an
    edge whose geometry has no list of waypoints [addPointAt] stores the
    list of the new point alone, whatever [k] is, and removing its handle
    1 leaves the empty list, not the former geometry. *)
Theorem add_remove_round_trip (w : World) (st : mxEdgeState) (x y : Q)
    (g : mxGeometry) (a : jsarray mxPoint) (h1 : mxEdgeHandler) (l1 : nat)
    (tr1 : list Call) :
  getGeometry (model w) (es_cell st) = Some g ->
  (forall c m, throws E c m = false) ->
  state h1 = st -> abspoints (hnd h1) = Some a ->
  let k := findNearestSegment E st ((x + px (translate E)) * scale E)
             ((y + py (translate E)) * scale E) in
  let m1 := model (addPointAt E st x y w).2 in
  let removed idx := model (removePoint E st idx (MkWorld h1 m1 l1 tr1)).2 in
  (forall ps, gpoints g = Some ps ->
     (0 <= k <= Z.of_nat (length ps))%Z -> (k + 1 < Z.of_nat (length a) - 1)%Z ->
     gpoints <$> getGeometry m1 (es_cell st) =
       Some (Some (js_splice_insert ps k (MkPoint x y))) /\
     getGeometry (removed (k + 1)%Z) (es_cell st) = Some g) /\
  (gpoints g = None -> (1 < Z.of_nat (length a) - 1)%Z ->
     gpoints <$> getGeometry m1 (es_cell st) = Some (Some [Some (MkPoint x y)]) /\
     getGeometry (removed 1%Z) (es_cell st) = Some (geo_set_points g (Some []))).
Proof.
  intros Hg Hthrows Hst Ha k m1 removed.
  assert (Hadd : getGeometry m1 (es_cell st) =
                 Some (geo_set_points g
                         (Some match gpoints g with
                               | Some ps => js_splice_insert ps k (MkPoint x y)
                               | None => [Some (MkPoint x y)]
                               end))).
  { subst m1. unfold addPointAt. unfold se_bind at 1. rewrite entered_trace.
    unfold se_bind at 1, se_get at 1. cbn [log model]. rewrite Hg. fold k.
    rewrite set_geometry_then_rebuild by apply Hthrows.
    cbn [log model]. rewrite (getGeometry_alter _ _ _ _ Hg). now destruct (gpoints g). }
  assert (Hremove : forall idx ps,
            (0 < idx)%Z -> (idx < Z.of_nat (length a) - 1)%Z ->
            getGeometry m1 (es_cell st) = Some (geo_set_points g (Some ps)) ->
            getGeometry (removed idx) (es_cell st) =
            Some (geo_set_points g (Some (js_splice_remove ps (idx - 1))))).
  { intros idx ps Hlo Hhi Hm1. subst removed. cbv beta.
    unfold removePoint. unfold se_bind at 1. rewrite entered_trace.
    unfold se_bind at 1, se_get at 1. cbn [log model this].
    destruct (Z.ltb_spec 0 idx); [| lia].
    rewrite Ha. unfold se_bind at 1. cbn [deref se_ret].
    destruct (Z.ltb_spec idx (Z.of_nat (length a) - 1)); [| lia].
    rewrite Hst, Hm1. cbn [gpoints geo_set_points].
    rewrite set_geometry_then_rebuild by apply Hthrows.
    cbn [log model]. now rewrite (getGeometry_alter _ _ _ _ Hm1). }
  split.
  - intros ps Hps Hk Hint. rewrite Hps in Hadd. split; [now rewrite Hadd |].
    assert (Hpos : (0 < k + 1)%Z) by lia.
    rewrite (Hremove _ _ Hpos Hint Hadd).
    replace (k + 1 - 1)%Z with k by lia.
    rewrite js_splice_insert_remove by exact Hk.
    destruct g. cbn in *. now subst.
  - intros Hps Hint. rewrite Hps in Hadd. split; [now rewrite Hadd |].
    now rewrite (Hremove 1%Z _ eq_refl Hint Hadd).
Qed.

(** ** What the commit operations leave alone *)

Lemma only_geometry_refl (edge : cell) (w : World) : only_geometry_of edge w w.
Proof. intros c. now split. Qed.

Lemma only_geometry_trans (edge : cell) (w1 w2 w3 : World) :
  only_geometry_of edge w1 w2 -> only_geometry_of edge w2 w3 -> only_geometry_of edge w1 w3.
Proof.
  intros H12 H23 c. destruct (H12 c) as [Ha Hb], (H23 c) as [Hc Hd]. split.
  - intros Hne. now rewrite Hc, Ha.
  - now rewrite Hd, Hb.
Qed.

Lemma call_only_geometry (edge : cell) (c : Call) :
  geometry_call_of edge c = true -> stable (only_geometry_of edge) (call E c).
Proof.
  intros Hc w x. unfold call. cbn [log model].
  destruct (throws E c (model w)); cbn [snd model]; [now split |].
  destruct c; try discriminate Hc; cbn [perform]; try (now split).
  cbn in Hc. apply bool_decide_eq_true in Hc. subst c. split.
  - intros Hne. now rewrite lookup_alter_ne.
  - destruct (decide (edge = x)) as [-> | Hne].
    + rewrite lookup_alter_eq. now destruct (model w !! x).
    + now rewrite lookup_alter_ne.
Qed.

Lemma liftH_only_geometry {A} (edge : cell) (f : gmap cell mxCell -> H A) :
  stable (only_geometry_of edge) (liftH f).
Proof.
  intros w c. destruct (liftH_frame f w) as (Hm & _). rewrite Hm. now split.
Qed.

Ltac only_geometry_tac edge :=
  intros;
  repeat (first
    [ assumption
    | apply call_only_geometry; cbn; now rewrite ?bool_decide_eq_true_2
    | apply liftH_only_geometry
    | apply stable_modify; intros ?; apply only_geometry_refl
    | stable_step (only_geometry_refl edge) (only_geometry_trans edge) ]).

(** X12. [moveLabel], [changePoints], [addPointAt] and [removePoint]
    change nothing in the model but the geometry of their edge, whether
    they return or throw: every other cell, and the parent, terminals and
    children of the edge itself, are as before. *)
Theorem commit_changes_geometry_only (w : World) :
  (forall st x y, only_geometry_of (es_cell st) w (moveLabel E st x y w).2) /\
  (forall edge pts, only_geometry_of edge w (changePoints E edge pts w).2) /\
  (forall st x y, only_geometry_of (es_cell st) w (addPointAt E st x y w).2) /\
  (forall st idx, only_geometry_of (es_cell st) w (removePoint E st idx w).2).
Proof.
  split; [| split; [| split]]; intros.
  - revert w.
    change (stable (only_geometry_of (es_cell st)) (moveLabel E st x y)).
    unfold moveLabel, entered. only_geometry_tac (es_cell st).
  - revert w. change (stable (only_geometry_of edge) (changePoints E edge pts)).
    unfold changePoints, entered. only_geometry_tac edge.
  - revert w. change (stable (only_geometry_of (es_cell st)) (addPointAt E st x y)).
    unfold addPointAt, entered. only_geometry_tac (es_cell st).
  - revert w. change (stable (only_geometry_of (es_cell st)) (removePoint E st idx)).
    unfold removePoint, entered. only_geometry_tac (es_cell st).
Qed.

(** ** What the commit operations do *)

(** A call at transaction depth 0 that does not fail. *)
Lemma call_ok (c : Call) (w : World) :
  throws E c (model w) = false ->
  exists h', call E c w =
             (Normal tt, MkWorld h' (perform c (model w)) (level_after c (updateLevel w))
                           (trace w ++ [c])) /\
             (h' = this w \/ h' = destroy (this w)).
Proof.
  intros Ht. unfold call. cbn [log model updateLevel this trace]. rewrite Ht.
  eexists. split; [reflexivity |].
  destruct (bool_decide _ && refreshes E c); auto.
Qed.

(** X13. When no call fails, [changeTerminalPoint] returns normally
    having stored the point as the terminal point of that end and
    disconnected that end; the other terminal, the waypoints, the parent
    and every other cell are as before. *)
Theorem changeTerminalPoint_effect (w : World) (edge : cell) (pt : mxPoint) (isSrc : bool)
    (x : mxCell) (g : mxGeometry) :
  (forall c m, throws E c m = false) ->
  model w !! edge = Some x -> geometry x = Some g ->
  exists w',
    changeTerminalPoint E edge pt isSrc w = (Normal tt, w') /\
    model w' !! edge =
      Some (cell_set_terminal None isSrc
              (cell_set_geometry (Some (setTerminalPoint g pt isSrc)) x)) /\
    (forall c, c <> edge -> model w' !! c = model w !! c) /\
    updateLevel w' = updateLevel w.
Proof.
  intros Hthrows Hx Hgeo.
  assert (Hg : getGeometry (model w) edge = Some g) by (unfold getGeometry; now rewrite Hx).
  unfold changeTerminalPoint. unfold se_bind at 1. rewrite entered_trace.
  unfold se_bind at 1, se_get at 1. cbn [log model]. rewrite Hg.
  unfold se_bind at 1. unfold call at 1. rewrite Hthrows.
  cbn [log model updateLevel this trace level_after perform].
  rewrite bool_decide_eq_false_2 by discriminate. cbn [andb].
  unfold try_finally, changeTerminalPoint_try, se_bind.
  repeat (erewrite call_inner; [| apply Hthrows | reflexivity | reflexivity]).
  cbn [model this updateLevel trace].
  match goal with |- context [call E EndUpdate ?x] =>
    destruct (call_ok EndUpdate x (Hthrows _ _)) as (h' & Hend & _)
  end.
  rewrite Hend.
  eexists. split; [reflexivity |]. cbn [model perform updateLevel level_after pred].
  split; [| split; [| reflexivity]].
  - rewrite !lookup_alter_eq, Hx. reflexivity.
  - intros c Hc. now rewrite !lookup_alter_ne by congruence.
Qed.

(** A [connect] without a clone in which no call fails. *)
Lemma connect_plain (w : World) (edge t : cell) (src : bool) (ch : mxConstraintHandler) :
  (forall c m, throws E c m = false) ->
  constraintHandler (this w) = Some ch ->
  exists w',
    connect E edge t src false w = (Normal edge, w') /\
    model w' = alter (cell_set_terminal (Some t) src) edge (model w) /\
    (this w' = this w \/ this w' = destroy (this w)).
Proof.
  intros Hthrows Hch. unfold connect. unfold se_bind at 1. rewrite entered_trace.
  unfold se_bind at 1, se_get at 1. unfold se_bind at 1.
  unfold call at 1. rewrite Hthrows.
  cbn [log model updateLevel this trace level_after perform].
  rewrite bool_decide_eq_false_2 by discriminate. cbn [andb].
  unfold try_finally, connect_try, se_bind, se_get, se_ret.
  cbn [model this updateLevel trace]. rewrite Hch. cbn [deref se_ret].
  erewrite call_inner; [| apply Hthrows | reflexivity | reflexivity].
  cbn [model this updateLevel trace].
  match goal with |- context [call E EndUpdate ?x] =>
    destruct (call_ok EndUpdate x (Hthrows _ _)) as (h' & Hend & Hh')
  end.
  rewrite Hend. eexists. split; [reflexivity |]. cbn [model this perform]. auto.
Qed.

(** X14. At pointer-up of an endpoint drag the constraint handler
    decides: when it has a focus and a constraint, the dragged end of the
    edge is connected to the focus cell, whatever valid state the marker
    holds. *)
Theorem mouseUp_connects_focus (w : World) (me : mxMouseEvent) (i : Z) (m : mxCellMarker)
    (ch : mxConstraintHandler) (f : mxCellState) (c : mxConnectionConstraint) (x : mxCell) :
  (forall c m, throws E c m = false) ->
  index (ses (this w)) = Some i -> marker (this w) = Some m ->
  moved (this w) me = true -> error (ses (this w)) = None -> isLabel (ses (this w)) = false ->
  isSource (ses (this w)) || isTarget (ses (this w)) = true ->
  constraintHandler (this w) = Some ch -> currentFocus ch = Some f ->
  currentConstraint ch = Some c ->
  isCloneEvent E me && cloneEnabled (cfg (this w)) && isCellsCloneable E = false ->
  model w !! es_cell (state (this w)) = Some x ->
  getTerminal (model (mouseUp E me w).2) (es_cell (state (this w))) (isSource (ses (this w))) =
  Some (cs_cell f).
Proof.
  intros Hthrows Hi Hm Hmv He Hl Hend Hch Hf Hc Hclone Hx.
  unfold mouseUp. unfold se_bind at 1, se_get at 1.
  rewrite Hi, Hm, Hmv, He, Hl, Hend, Hch.
  set (tail := fun edge : cell => se_bind se_get _).
  unfold se_bind at 1. unfold se_bind at 1. cbn [deref se_ret]. rewrite Hc, Hf, Hclone.
  destruct (connect_plain w (es_cell (state (this w))) (cs_cell f) (isSource (ses (this w)))
              ch Hthrows Hch) as (w1 & Hrun & Hmodel & _).
  rewrite Hrun.
  pose proof (mouseUp_tail_same_model E (es_cell (state (this w))) w1) as Hsame.
  unfold same_model in Hsame. subst tail. cbv beta. rewrite Hsame, Hmodel.
  unfold getTerminal. rewrite lookup_alter_eq, Hx. cbn.
  now destruct (isSource (ses (this w))).
Qed.

(** ** Pointer-up *)

(** After the commit, with the edge still the handled one, [mouseUp]
    calls no collaborator any more. *)
Lemma mouseUp_tail_quiet (edge : cell) (w : World) :
  es_cell (state (this w)) = edge ->
  let w' := ((do w <- se_get;
              match marker (this w) with
              | Some _ =>
                liftH (reset E) ;;
                do w <- se_get;
                when_ (negb (bool_decide (edge = es_cell (state (this w)))))
                      (call E (SetSelectionCell edge))
              | None => se_ret tt
              end) w).2 in
  model w' = model w /\ trace w' = trace w /\ updateLevel w' = updateLevel w.
Proof.
  intros <- w'. unfold se_bind at 1, se_get at 1 in (value of w'). subst w'.
  destruct (marker (this w)); [exact (mouseUp_tail_frame E w) | now cbn].
Qed.

(** X15. A pointer-up away from the anchor with a non-empty validation
    error shows that error once and commits nothing: the alert is the
    only call made, and the cells and the transaction depth are as
    before, whether the alert returns or throws. *)
Theorem mouseUp_error_alerts (w : World) (me : mxMouseEvent) (i : Z) (m : mxCellMarker)
    (e : string) :
  index (ses (this w)) = Some i -> marker (this w) = Some m ->
  moved (this w) me = true -> error (ses (this w)) = Some e ->
  (0 < String.length e)%nat ->
  let w' := (mouseUp E me w).2 in
  trace w' = trace w ++ [ValidationAlert e] /\ model w' = model w /\
  updateLevel w' = updateLevel w.
Proof.
  intros Hi Hm Hmv He Hlen. apply Nat.ltb_lt in Hlen.
  destruct (mouseUp E me w) as [r w'] eqn:Hrun. cbn [snd].
  unfold mouseUp in Hrun. unfold se_bind at 1, se_get at 1 in Hrun.
  rewrite Hi, Hm, Hmv, He, Hlen in Hrun. cbn [when_] in Hrun.
  unfold se_bind at 1 in Hrun. unfold se_bind at 1 in Hrun. unfold call at 1 in Hrun.
  cbn [log model trace updateLevel this] in Hrun.
  destruct (throws E (ValidationAlert e) (model w)).
  - injection Hrun as <- <-. now cbn.
  - cbn [level_after perform se_ret] in Hrun.
    match type of Hrun with context [MkWorld ?h ?a ?b ?c] =>
      set (w1 := MkWorld h a b c) in Hrun
    end.
    assert (Hst : es_cell (state (this w1)) = es_cell (state (this w))).
    { subst w1. cbn [this]. now destruct (_ && _). }
    pose proof (mouseUp_tail_quiet _ w1 Hst) as Hq. cbv zeta in Hq.
    rewrite Hrun in Hq. cbn [snd] in Hq. destruct Hq as (Hmodel & Htrace & Hlevel).
    rewrite Hmodel, Htrace, Hlevel. now subst w1.
Qed.

(** X16. The pointer-up of a label drag commits with [moveLabel] at the
    position of the label handle: one [setGeometry] on the edge and no
    other call.  The x and y of the new geometry are the relative
    position that [getRelativePoint] gives for the label handle, the
    waypoints and the terminal points are kept, and the offset is the
    difference between the label handle and the point the view computes
    for that relative position with a zero offset, divided by the scale
    (which is not zero), both operations being those of doubles. *)
Theorem label_drag_commit (w : World) (me : mxMouseEvent) (i : Z) (m : mxCellMarker)
    (l : mxPoint) (g : mxGeometry) :
  index (ses (this w)) = Some i -> marker (this w) = Some m ->
  moved (this w) me = true -> error (ses (this w)) = None ->
  isLabel (ses (this w)) = true -> label (hnd (this w)) = Some l ->
  getGeometry (model w) (es_cell (state (this w))) = Some g ->
  ~ (scale E == 0)%Q ->
  let st := state (this w) in
  let rel := getRelativePoint E st (px l) (py l) in
  let anchor := getPoint E st (MkGeometry (px rel) (py rel) (Some (MkPoint 0 0)) (gpoints g)
                                 (gsourcePoint g) (gtargetPoint g)) in
  let g' := MkGeometry (px rel) (py rel)
              (Some (MkPoint (num_div (num_sub (px l) (px anchor)) (scale E))
                             (num_div (num_sub (py l) (py anchor)) (scale E))))
              (gpoints g) (gsourcePoint g) (gtargetPoint g) in
  let w' := (mouseUp E me w).2 in
  trace w' = trace w ++ [Invoked OpMoveLabel; SetGeometry (es_cell st) g'] /\
  (throws E (SetGeometry (es_cell st) g') (model w) = false ->
   getGeometry (model w') (es_cell st) = Some g').
Proof.
  intros Hi Hm Hmv He Hl Hlabel Hg _ st rel anchor g' w'. subst w'.
  destruct (mouseUp E me w) as [r w'] eqn:Hrun. cbn [snd].
  unfold mouseUp in Hrun. unfold se_bind at 1, se_get at 1 in Hrun.
  rewrite Hi, Hm, Hmv, He, Hl, Hlabel in Hrun. cbn [deref] in Hrun.
  unfold se_bind at 1 in Hrun. unfold se_bind at 1 in Hrun.
  unfold se_bind at 1, se_ret at 1 in Hrun.
  unfold moveLabel at 1 in Hrun. unfold se_bind at 1 in Hrun. rewrite entered_trace in Hrun.
  unfold se_bind at 1, se_get at 1 in Hrun. cbn [log model] in Hrun. rewrite Hg in Hrun.
  change (call E (SetGeometry _ _)) with (call E (SetGeometry (es_cell st) g')) in Hrun.
  unfold call at 1 in Hrun. cbn [log model trace updateLevel this] in Hrun.
  destruct (throws E (SetGeometry (es_cell st) g') (model w)).
  - injection Hrun as <- <-. cbn [trace log]. rewrite <- app_assoc.
    split; [reflexivity | intros [=]].
  - cbn [level_after perform se_ret] in Hrun.
    match type of Hrun with context [MkWorld ?h ?a ?b ?c] =>
      set (w1 := MkWorld h a b c) in Hrun
    end.
    assert (Hst : es_cell (state (this w1)) = es_cell st).
    { subst w1. cbn [this]. now destruct (_ && _). }
    pose proof (mouseUp_tail_quiet _ w1 Hst) as Hq. cbv zeta in Hq.
    fold st in Hrun. rewrite Hrun in Hq. cbn [snd] in Hq.
    destruct Hq as (Hmodel & Htrace & _).
    rewrite Htrace, Hmodel. subst w1. cbn [trace model]. rewrite <- app_assoc.
    split; [reflexivity | intros _].
    unfold getGeometry in Hg |- *. subst st. rewrite lookup_alter_eq.
    destruct (model w !! es_cell (state (this w))); [reflexivity | discriminate Hg].
Qed.

Lemma call_this (c : Call) (w : World) :
  this (call E c w).2 = this w \/ this (call E c w).2 = destroy (this w).
Proof.
  unfold call. cbn [log model this updateLevel].
  destruct (throws E c (model w)); cbn [snd this]; [now left |].
  destruct (_ && _); auto.
Qed.

Lemma same_session_refl (w : World) : same_session w w.
Proof. reflexivity. Qed.

Lemma same_session_trans (w1 w2 w3 : World) :
  same_session w1 w2 -> same_session w2 w3 -> same_session w1 w3.
Proof. unfold same_session. congruence. Qed.

Lemma call_same_session (c : Call) : stable same_session (call E c).
Proof.
  intros w. unfold same_session. now destruct (call_this c w) as [-> | ->].
Qed.

Ltac same_session_tac :=
  intros;
  repeat (first
    [ assumption
    | apply call_same_session
    | apply stable_modify; intros ?; reflexivity
    | stable_step same_session_refl same_session_trans ]).

Lemma reset_TypeError (mdl : gmap cell mxCell) : throws_TypeError_only (reset E mdl).
Proof.
  pose proof redrawHandles_TypeError.
  unfold reset, setPreviewColor, redraw, drawPreview. TypeError_tac.
Qed.

(** X17. When the pointer-up of an armed gesture returns, the handler is
    either idle again (no handle index, no error, no endpoint or label
    flag, no active preview) or has been destroyed by the refresh that
    followed the commit. *)
Theorem mouseUp_leaves_idle (w : World) (me : mxMouseEvent) (i : Z) (m : mxCellMarker) :
  index (ses (this w)) = Some i -> marker (this w) = Some m ->
  (mouseUp E me w).1 = Normal tt ->
  let h' := this (mouseUp E me w).2 in
  marker h' = None \/
  (index (ses h') = None /\ error (ses h') = None /\ isSource (ses h') = false /\
   isTarget (ses h') = false /\ isLabel (ses h') = false /\ active (ses h') = false).
Proof.
  intros Hi Hm Hnormal h'. subst h'.
  destruct (mouseUp E me w) as [r w'] eqn:Hrun. cbn [fst snd] in *. subst r.
  unfold mouseUp in Hrun. unfold se_bind at 1, se_get at 1 in Hrun. rewrite Hi, Hm in Hrun.
  apply se_bind_inv in Hrun. destruct Hrun as [(e & _ & [=]) | (edge & w1 & _ & Htail)].
  unfold se_bind at 1, se_get at 1 in Htail.
  destruct (marker (this w1)) as [m1 |] eqn:Hm1.
  - right. apply se_bind_inv in Htail.
    destruct Htail as [(e & _ & [=]) | ([] & w2 & Hreset & Hsel)].
    destruct (liftH_frame (reset E) w1) as (_ & _ & _ & Hthis). rewrite Hreset in Hthis.
    cbn [snd] in Hthis.
    pose proof (reset_same_gesture (model w1) (this w1)) as Hg. rewrite <- Hthis in Hg.
    unfold se_bind at 1, se_get at 1 in Hsel.
    assert (Hses : ses (this w') = ses (this w2)).
    { destruct (negb _); cbn [when_] in Hsel.
      - pose proof (call_same_session (SetSelectionCell edge) w2) as Hc.
        now rewrite Hsel in Hc.
      - now injection Hsel as <-. }
    rewrite Hses. exact Hg.
  - left. cbn in Htail. injection Htail as <-. exact Hm1.
Qed.

(** X18. [mouseUp] has no handler for a failing commit: when a call of
    the commit throws, the exception leaves [mouseUp] before [reset], and
    the gesture state (anchor, handle index, flags, error and previewed
    points) is still that of the drag. *)
Theorem mouseUp_failed_commit_stays_armed (w : World) (me : mxMouseEvent) (c : Call) :
  (mouseUp E me w).1 = Throw (ModelFailure c) ->
  (forall x, c <> SetSelectionCell x) ->
  ses (this (mouseUp E me w).2) = ses (this w).
Proof.
  intros Hthrow Hc.
  destruct (mouseUp E me w) as [r w'] eqn:Hrun. cbn [fst snd] in *. subst r.
  unfold mouseUp in Hrun. unfold se_bind at 1, se_get at 1 in Hrun.
  destruct (index (ses (this w))) as [i |]; [| discriminate Hrun].
  destruct (marker (this w)) as [m |]; [| discriminate Hrun].
  match type of Hrun with se_bind ?commit _ _ = _ =>
    assert (Hcommit : stable same_session commit)
  end.
  { unfold moveLabel, connect, connect_try, cell_clone, danglingPoint, changeTerminalPoint,
      changeTerminalPoint_try, changePoints, entered.
    same_session_tac. }
  apply se_bind_inv in Hrun. destruct Hrun as [(e & Hrun & _) | (edge & w1 & _ & Htail)].
  - specialize (Hcommit w). now rewrite Hrun in Hcommit.
  - exfalso. unfold se_bind at 1, se_get at 1 in Htail.
    destruct (marker (this w1)) as [m1 |]; [| discriminate Htail].
    apply se_bind_inv in Htail.
    destruct Htail as [(e & Hreset & [= He]) | ([] & w2 & _ & Hsel)].
    + unfold liftH in Hreset.
      pose proof (reset_TypeError (model w1) (this w1) e) as Hte.
      destruct (reset E (model w1) (this w1)) as [r h2]. injection Hreset as -> _.
      specialize (Hte eq_refl). congruence.
    + unfold se_bind at 1, se_get at 1 in Hsel.
      destruct (negb _); cbn [when_] in Hsel; [| discriminate Hsel].
      unfold call in Hsel. destruct (throws _ _ _); [| discriminate Hsel].
      injection Hsel as Hsel _. exact (Hc _ (eq_sym Hsel)).
Qed.

(** ** The handles that [createBends] makes *)

Lemma createBends_loop_app (c : cell) (len : nat) (l1 l2 : list Z) (bs : jsarray mxShape)
    (h : mxEdgeHandler) :
  createBends_loop E c len (l1 ++ l2) bs h =
  se_bind (createBends_loop E c len l1 bs) (createBends_loop E c len l2) h.
Proof.
  revert bs h. induction l1 as [| i l1 IH]; intros bs h; cbn [app createBends_loop].
  - reflexivity.
  - destruct ((i =? 0)%Z || (i =? Z.of_nat len - 1)%Z) eqn:Ht; cbn [orb].
    + unfold se_bind, se_get. rewrite IH. reflexivity.
    + destruct (isCellBendable E c); [| apply IH].
      unfold se_bind, se_get, se_modify.
      destruct (points (ses h)) as [ps |]; cbn [deref se_ret se_throw]; [| reflexivity].
      rewrite IH. reflexivity.
Qed.

Lemma createBends_loop_terminal (c : cell) (len : nat) (i : Z) (bs : jsarray mxShape)
    (h : mxEdgeHandler) :
  (i =? 0)%Z || (i =? Z.of_nat len - 1)%Z = true ->
  createBends_loop E c len [i] bs h = (Normal (bs ++ [Some (createHandleShape E h i)]), h).
Proof. intros Ht. cbn [createBends_loop]. now rewrite Ht. Qed.

Lemma createBends_loop_unbendable (c : cell) (len : nat) (l : list Z) (bs : jsarray mxShape)
    (h : mxEdgeHandler) :
  Forall (fun i => i <> 0 /\ i <> Z.of_nat len - 1)%Z l -> isCellBendable E c = false ->
  createBends_loop E c len l bs h = (Normal bs, h).
Proof.
  intros Hl Hb. induction Hl as [| i l [H0 Hn] _ IH]; cbn [createBends_loop]; [reflexivity |].
  apply Z.eqb_neq in H0, Hn. now rewrite H0, Hn, Hb.
Qed.

Lemma createBends_loop_inner (c : cell) (len : nat) (l : list Z) :
  Forall (fun i => i <> 0 /\ i <> Z.of_nat len - 1)%Z l -> isCellBendable E c = true ->
  forall (h : mxEdgeHandler) (old : jsarray mxPoint) (bs : jsarray mxShape),
    points (ses h) = Some old ->
    createBends_loop E c len l bs h =
    (Normal (bs ++ ((fun i => Some (shape_set_hidden true (createHandleShape E h i))) <$> l)),
     match l with
     | [] => h
     | _ :: _ =>
       set_ses (ses_points (Some (old ++ replicate (length l) (Some (MkPoint 0 0))))) h
     end).
Proof.
  intros Hl Hb. induction Hl as [| i l [H0 Hn] Hl IH]; intros h old bs Hold.
  - cbn. now rewrite app_nil_r.
  - cbn [createBends_loop]. apply Z.eqb_neq in H0, Hn. rewrite H0, Hn, Hb. cbn [orb].
    unfold se_bind at 1, se_get. rewrite Hold. cbn [deref].
    unfold se_bind at 1, se_ret. unfold se_bind at 1, se_modify.
    rewrite (IH _ (old ++ [Some (MkPoint 0 0)])) by reflexivity.
    rewrite <- app_assoc. cbn [fmap list_fmap app length replicate]. f_equal.
    destruct l; [reflexivity |].
    unfold set_ses, ses_points. cbn. now rewrite <- app_assoc.
Qed.

(** X19. For an edge with at least two absolute points [createBends]
    returns a visible handle for the first point, then, only if the edge
    is bendable, one hidden handle for every interior point, then a
    visible handle for the last point.  It pushes one placeholder point
    per interior handle onto [this.points] and reads [this.points] only
    for that: without interior handles the handler is left as it is, even
    when [this.points] is null, and with interior handles a null
    [this.points] makes it throw a TypeError. *)
Theorem createBends_handles (h : mxEdgeHandler) (a : jsarray mxPoint) :
  abspoints (hnd h) = Some a -> (2 <= length a)%nat ->
  let n := Z.of_nat (length a) in
  let bendable := isCellBendable E (es_cell (state h)) in
  let first := Some (createHandleShape E h 0) in
  let last := Some (createHandleShape E h (n - 1)) in
  let inner := (fun i => Some (shape_set_hidden true (createHandleShape E h i))) <$>
               seqZ 1 (n - 2) in
  createBends E h =
  match (if bendable then inner else []), points (ses h) with
  | [], _ => (Normal [first; last], h)
  | _ :: _, Some old =>
    (Normal ([first] ++ inner ++ [last]),
     set_ses (ses_points (Some (old ++ replicate (length a - 2) (Some (MkPoint 0 0))))) h)
  | _ :: _, None => (Throw TypeError, h)
  end.
Proof.
  intros Ha Hlen n bendable first last inner.
  unfold createBends. unfold se_bind at 1, se_get. rewrite Ha. cbn [deref].
  unfold se_bind at 1, se_ret. fold n.
  replace (seqZ 0 n) with (seqZ 0 1 ++ seqZ 1 (n - 2) ++ seqZ (n - 1) 1).
  2: { replace n with (1 + ((n - 2) + 1))%Z at 3 by lia.
       rewrite !seqZ_app by lia. do 3 f_equal. lia. }
  change (seqZ 0 1) with [0%Z]. change (seqZ (n - 1) 1) with [(n - 1)%Z].
  assert (Hinner : Forall (fun i => i <> 0 /\ i <> Z.of_nat (length a) - 1)%Z
                     (seqZ 1 (n - 2))).
  { apply Forall_seqZ. intros i Hi. subst n. lia. }
  assert (Hlast : (n - 1 =? 0)%Z || (n - 1 =? Z.of_nat (length a) - 1)%Z = true).
  { subst n. now rewrite Z.eqb_refl, orb_true_r. }
  rewrite createBends_loop_app. unfold se_bind at 1.
  rewrite createBends_loop_terminal by reflexivity. cbn [app].
  rewrite createBends_loop_app. unfold se_bind at 1.
  subst bendable. destruct (isCellBendable E (es_cell (state h))) eqn:Hb.
  - destruct (points (ses h)) as [old |] eqn:Hold.
    + rewrite (createBends_loop_inner _ _ _ Hinner Hb h old) by exact Hold.
      subst inner. destruct (seqZ 1 (n - 2)) as [| i l] eqn:Hseq.
      * cbn [fmap list_fmap app]. now rewrite createBends_loop_terminal.
      * rewrite createBends_loop_terminal by exact Hlast.
        assert (Hl : length (i :: l) = (length a - 2)%nat).
        { rewrite <- Hseq, length_seqZ. subst n. lia. }
        rewrite Hl, <- app_assoc. reflexivity.
    + subst inner. destruct (seqZ 1 (n - 2)) as [| i l] eqn:Hseq.
      * cbn [fmap list_fmap]. change (createBends_loop E ?c ?len [] ?bs) with (@se_ret mxEdgeHandler _ bs).
        unfold se_ret at 1. now rewrite createBends_loop_terminal.
      * inversion Hinner as [| ? ? [H0 Hn] _]; subst.
        cbn [fmap list_fmap createBends_loop]. apply Z.eqb_neq in H0, Hn.
        rewrite H0, Hn, Hb. cbn [orb]. unfold se_bind at 1, se_get. rewrite Hold.
        reflexivity.
  - rewrite (createBends_loop_unbendable _ _ _ _ _ Hinner Hb).
    now rewrite createBends_loop_terminal.
Qed.

(** ** Initialising *)

(** With a list in [this.points] the loop of [createBends] returns, and
    it does not look at the bends or the label shape of the handler. *)
Lemma createBends_loop_handles (c : cell) (len : nat) (l : list Z) :
  forall (bs : jsarray mxShape) (h1 h2 : mxEdgeHandler) (old : jsarray mxPoint),
    same_but_handles h1 h2 -> points (ses h1) = Some old ->
    exists bs' h1' h2',
      createBends_loop E c len l bs h1 = (Normal bs', h1') /\
      createBends_loop E c len l bs h2 = (Normal bs', h2') /\
      same_but_handles h1' h2'.
Proof.
  induction l as [| i l IH]; intros bs h1 h2 old Hsame Hold; cbn [createBends_loop].
  - now exists bs, h1, h2.
  - assert (Hshape : createHandleShape E h1 i = createHandleShape E h2 i).
    { destruct Hsame as (Hc & _ & _ & _ & _ & _ & _ & _ & Hp).
      unfold createHandleShape. now rewrite Hc, Hp. }
    assert (Hold2 : points (ses h2) = Some old).
    { destruct Hsame as (_ & _ & _ & _ & Hs & _). now rewrite <- Hs. }
    destruct ((i =? 0)%Z || (i =? Z.of_nat len - 1)%Z); cbn [orb].
    + unfold se_bind, se_get. rewrite Hshape. now apply (IH _ _ _ old).
    + destruct (isCellBendable E c); [| now apply (IH _ _ _ old)].
      unfold se_bind, se_get, se_modify. rewrite Hold, Hold2, Hshape. cbn [deref se_ret].
      apply (IH _ _ _ (old ++ [Some (MkPoint 0 0)])); [| reflexivity].
      destruct Hsame as (Hc & Hst & Hm & Hch & Hs & Hsh & Hl & Ha & Hp).
      unfold same_but_handles. cbn. rewrite Hs. now repeat split.
Qed.

(** X20. When bends are created, [init] after [destroy] is [init]: it
    has the same outcome, and when the edge state has absolute points the
    handler is the one that [init] alone would have given, so that no
    shape, bend, marker or constraint handler of the destroyed handler
    survives the re-initialisation done by [addPointAt] and
    [removePoint]. *)
Theorem init_after_destroy (mdl : gmap cell mxCell) (h : mxEdgeHandler) :
  createsBends E = true ->
  (init E mdl (destroy h)).1 = (init E mdl h).1 /\
  (forall a, absolutePoints (state h) = Some a ->
             init E mdl (destroy h) = init E mdl h).
Proof.
  intros Hcb.
  unfold init, se_bind, se_modify, se_get. rewrite Hcb. cbn [when_].
  unfold createBends, se_bind, se_get, se_modify.
  cbn [set_marker set_constraintHandler set_ses set_hnd hnd abspoints hnd_abspoints hnd_shape
       hnd_preferHtml state destroy].
  destruct (absolutePoints (state h)) as [a |]; cbn [deref se_ret se_throw].
  - match goal with
    | |- context [createBends_loop E ?c ?len ?l [] ?x] =>
      match goal with
      | |- context [createBends_loop E c len l [] ?y] =>
        lazymatch y with
        | x => fail
        | _ => destruct (createBends_loop_handles c len l [] x y []) as
                 (bs' & h1' & h2' & Hrun1 & Hrun2 & Hsame);
               [now repeat split | reflexivity |]
        end
      end
    end.
    rewrite Hrun1, Hrun2.
    assert (Heq : forall X L,
              set_hnd (hnd_labelShape X) (set_hnd (hnd_label L) (set_hnd (hnd_bends (Some bs')) h1'))
              = set_hnd (hnd_labelShape X) (set_hnd (hnd_label L)
                                              (set_hnd (hnd_bends (Some bs')) h2'))).
    { intros X L. destruct Hsame as (Hc & Hst & Hm & Hch & Hs & Hsh & Hl & Ha & Hp).
      destruct h1' as [c1 st1 m1 ch1 s1 [sh1 bd1 ls1 lb1 ab1 ph1]].
      destruct h2' as [c2 st2 m2 ch2 s2 [sh2 bd2 ls2 lb2 ab2 ph2]].
      cbn in *. now subst. }
    rewrite Heq. split; [reflexivity | intros _ _; reflexivity].
  - split; [reflexivity | intros a [=]].
Qed.

End MoreProperties.

(** ** The further properties at concrete handlers *)

Lemma start_arms_unlocked_witness :
  index (ses (start env0 model0 0 10 0 waypoint_drag).2) = Some 0%Z.
Proof.
  exact (proj2 (start_arms_unlocked env0 model0 waypoint_drag 0 10 0
                  [handle0 1 (-3) 7; handle0 2 7 7; handle0 3 17 7; handle0 4 27 7]
                  eq_refl (or_introl eq_refl))).
Defined.

Lemma mouseDown_without_shift_witness :
  isShiftDown (event_at 0 10 1) = false /\
  model (mouseDown env0 (event_at 0 10 1) (world_of idle_handler model0)).2 = model0 /\
  trace (mouseDown env0 (event_at 0 10 1) (world_of idle_handler model0)).2 = [].
Proof.
  split; [reflexivity |].
  destruct (mouseDown_without_shift env0 (world_of idle_handler model0) (event_at 0 10 1))
    as (Hm & Ht & _); [reflexivity |].
  split; [exact Hm | exact Ht].
Defined.

Lemma getHandleForEvent_in_range_witness :
  getHandleForEvent env0 label_text_handler (event_at 17 10 100) = Some 0%Z /\
  exists bs b,
    bends (hnd label_text_handler) = Some bs /\ (0 <= 0 < Z.of_nat (length bs))%Z /\
    bs !! Z.to_nat 0 = Some b /\
    shape_hit env0 (hit_rectangle env0 label_text_handler (event_at 17 10 100))
      (event_at 17 10 100) b = true.
Proof.
  split; [vm_compute; reflexivity |].
  destruct (getHandleForEvent_in_range env0 label_text_handler (event_at 17 10 100) 0%Z)
    as [[Hlabel _] | Hbend]; [vm_compute; reflexivity | discriminate Hlabel | exact Hbend].
Defined.

Lemma marker_getCell_not_self_witness :
  marker_getCell env_over_vertex source_drag (event_at 40 40 1) = Some 5%positive /\
  5%positive <> es_cell (state source_drag) /\
  isEdge env_over_vertex 5%positive = false.
Proof.
  split; [vm_compute; reflexivity |].
  destruct (marker_getCell_not_self env_over_vertex source_drag (event_at 40 40 1) 5%positive)
    as [Hne Hedge]; [vm_compute; reflexivity |].
  split; [exact Hne | exact (Hedge eq_refl)].
Defined.

Lemma getPointForEvent_ignores_abspoints_witness :
  abspoints (hnd floating_drag) = None /\
  getPointForEvent env0 floating_drag (event_at 11 12 2) =
  getPointForEvent env0 waypoint_drag (event_at 11 12 2).
Proof.
  split; [reflexivity |].
  apply (getPointForEvent_ignores_abspoints env0 waypoint_drag floating_drag); reflexivity.
Defined.

Lemma reset_restores_preview_witness :
  abspoints (hnd (reset env0 model0 rejected_drag).2) = absolutePoints state0 /\
  label (hnd (reset env0 model0 rejected_drag).2) = Some (MkPoint 15 10) /\
  shape (hnd (reset env0 model0 rejected_drag).2) = Some SelectionColor.
Proof.
  apply (reset_restores_preview env0 model0 rejected_drag). vm_compute. reflexivity.
Defined.

Lemma redraw_requires_geometry_witness :
  getGeometry model_nogeo (es_cell (state waypoint_drag)) = None /\
  (reset env0 model_nogeo waypoint_drag).1 = Throw TypeError /\
  (mouseUp env0 (event_at 5 5 2) (world_of waypoint_drag model_nogeo)).1 = Throw TypeError.
Proof.
  split; [reflexivity |].
  destruct (redraw_requires_geometry env0 model_nogeo waypoint_drag) as (_ & Hreset & Hup);
    [reflexivity |].
  split; [exact Hreset |].
  apply (Hup (event_at 5 5 2) 0%nat [] 1%Z idle_marker); reflexivity.
Defined.

Lemma removePoint_bounds_witness :
  removePoint env0 state0 0 (world_of waypoint_drag model0) =
  (Normal tt, log (Invoked OpRemovePoint) (world_of waypoint_drag model0)) /\
  removePoint env0 state0 3 (world_of waypoint_drag model0) =
  (Normal tt, log (Invoked OpRemovePoint) (world_of waypoint_drag model0)).
Proof.
  destruct (removePoint_bounds env0 (world_of waypoint_drag model0) state0 0) as (Hlo & _ & _).
  destruct (removePoint_bounds env0 (world_of waypoint_drag model0) state0 3) as (_ & Hhi & _).
  split; [apply Hlo; lia |].
  apply (Hhi [Some (MkPoint 0 10); Some (MkPoint 10 10); Some (MkPoint 20 10);
              Some (MkPoint 30 10)]); [reflexivity | simpl; lia].
Defined.

Lemma add_remove_round_trip_witness :
  (let m1 := model (addPointAt env0 state0 5 5 (world_of idle_handler model0)).2 in
   gpoints <$> getGeometry m1 4%positive =
     Some (Some [Some (MkPoint 5 5); Some (MkPoint 10 10); Some (MkPoint 20 10)]) /\
   getGeometry (model (removePoint env0 state0 1 (MkWorld idle_handler m1 0 [])).2) 4%positive =
     Some geometry0) /\
  (let m1 := model (addPointAt env0 state0 5 5 (world_of idle_handler model_nopoints)).2 in
   gpoints <$> getGeometry m1 4%positive = Some (Some [Some (MkPoint 5 5)]) /\
   getGeometry (model (removePoint env0 state0 1 (MkWorld idle_handler m1 0 [])).2) 4%positive =
     Some (MkGeometry 0 0 None (Some []) None None)).
Proof.
  split.
  - apply (proj1 (add_remove_round_trip env0 (world_of idle_handler model0) state0 5 5
                    geometry0
                    [Some (MkPoint 0 10); Some (MkPoint 10 10); Some (MkPoint 20 10);
                     Some (MkPoint 30 10)]
                    idle_handler 0%nat [] eq_refl (fun c m => eq_refl) eq_refl eq_refl)
             [Some (MkPoint 10 10); Some (MkPoint 20 10)]);
      [reflexivity | simpl; lia | simpl; lia].
  - apply (proj2 (add_remove_round_trip env0 (world_of idle_handler model_nopoints) state0 5 5
                    (MkGeometry 0 0 None None None None)
                    [Some (MkPoint 0 10); Some (MkPoint 10 10); Some (MkPoint 20 10);
                     Some (MkPoint 30 10)]
                    idle_handler 0%nat [] eq_refl (fun c m => eq_refl) eq_refl eq_refl));
      [reflexivity | simpl; lia].
Defined.

Lemma changeTerminalPoint_effect_witness :
  exists w',
    changeTerminalPoint env0 4%positive (MkPoint 40 40) true (world_of source_drag model0) =
      (Normal tt, w') /\
    getTerminal (model w') 4%positive true = None /\
    getTerminal (model w') 4%positive false = Some 3%positive /\
    gsourcePoint <$> getGeometry (model w') 4%positive = Some (Some (MkPoint 40 40)) /\
    model w' !! 2%positive = Some vertex0.
Proof.
  destruct (changeTerminalPoint_effect env0 (world_of source_drag model0) 4%positive
              (MkPoint 40 40) true
              (MkCell (Some geometry0) (Some 1%positive) (Some 2%positive) (Some 3%positive) [])
              geometry0)
    as (w' & Hrun & Hedge & Hothers & _);
    [intros c m; reflexivity | reflexivity | reflexivity |].
  exists w'. split; [exact Hrun |]. unfold getTerminal, getGeometry. rewrite Hedge.
  split; [reflexivity |]. split; [reflexivity |]. split; [reflexivity |].
  now rewrite Hothers.
Defined.

Lemma mouseUp_connects_focus_witness :
  validState <$> marker focus_drag = Some (Some (MkState 3%positive (MkPoint 0 0))) /\
  getTerminal (model (mouseUp env0 (event_at 40 40 1) (world_of focus_drag model0)).2)
    4%positive true = Some 5%positive.
Proof.
  split; [reflexivity |].
  apply (mouseUp_connects_focus env0 (world_of focus_drag model0) (event_at 40 40 1) 0%Z
           (MkMarker (Some (MkState 3%positive (MkPoint 0 0)))
                     (Some (MkState 3%positive (MkPoint 0 0))))
           (MkConstraintHandler (Some (MkState 5%positive (MkPoint 0 0)))
                                (Some default_constraint))
           (MkState 5%positive (MkPoint 0 0)) default_constraint
           (MkCell (Some geometry0) (Some 1%positive) (Some 2%positive) (Some 3%positive) []));
    [intros c m; reflexivity | reflexivity ..].
Defined.

Lemma mouseUp_error_alerts_witness :
  trace (mouseUp env0 (event_at 40 40 1) (world_of rejected_drag model0)).2 =
    [ValidationAlert "not allowed"] /\
  model (mouseUp env0 (event_at 40 40 1) (world_of rejected_drag model0)).2 = model0.
Proof.
  destruct (mouseUp_error_alerts env0 (world_of rejected_drag model0) (event_at 40 40 1) 0%Z
              idle_marker "not allowed")
    as (Ht & Hm & _); [reflexivity | reflexivity | reflexivity | reflexivity | simpl; lia |].
  split; [exact Ht | exact Hm].
Defined.

Lemma label_drag_commit_witness :
  let g' := MkGeometry 25 30 (Some (MkPoint 0 0)) (gpoints geometry0) None None in
  trace (mouseUp env0 (event_at 25 30 0) (world_of label_drag model0)).2 =
    [Invoked OpMoveLabel; SetGeometry 4%positive g'] /\
  getGeometry (model (mouseUp env0 (event_at 25 30 0) (world_of label_drag model0)).2)
    4%positive = Some g'.
Proof.
  destruct (label_drag_commit env0 (world_of label_drag model0) (event_at 25 30 0) (-1)%Z
              idle_marker (MkPoint 25 30) geometry0)
    as (Ht & Hg);
    [reflexivity | reflexivity | reflexivity | reflexivity | reflexivity | reflexivity
    | reflexivity | intros H; vm_compute in H; lia |].
  split; [exact Ht | exact (Hg eq_refl)].
Defined.

Lemma mouseUp_leaves_idle_witness :
  (mouseUp env0 (event_at 13 17 2) (world_of waypoint_drag model0)).1 = Normal tt /\
  index (ses (this (mouseUp env0 (event_at 13 17 2) (world_of waypoint_drag model0)).2)) = None.
Proof.
  split; [vm_compute; reflexivity |].
  destruct (mouseUp_leaves_idle env0 (world_of waypoint_drag model0) (event_at 13 17 2) 1%Z
              idle_marker)
    as [Hgone | (Hidle & _)];
    [reflexivity | reflexivity | vm_compute; reflexivity | | exact Hidle].
  vm_compute in Hgone. discriminate Hgone.
Defined.

Lemma mouseUp_failed_commit_stays_armed_witness :
  (mouseUp env_failing (event_at 40 40 1) (world_of focus_drag model0)).1 =
    Throw (ModelFailure (ConnectCell 4 (Some 5%positive) true (Some default_constraint))) /\
  ses (this (mouseUp env_failing (event_at 40 40 1) (world_of focus_drag model0)).2) =
    ses focus_drag.
Proof.
  split; [vm_compute; reflexivity |].
  apply (mouseUp_failed_commit_stays_armed env_failing (world_of focus_drag model0)
           (event_at 40 40 1)
           (ConnectCell 4 (Some 5%positive) true (Some default_constraint)));
    [vm_compute; reflexivity | intros x; discriminate].
Defined.

Lemma createBends_handles_witness :
  createBends env0 waypoint_drag =
  (Normal [Some (MkShape 1 false false (MkRect 0 0 7 7));
           Some (MkShape 2 false true (MkRect 0 0 7 7));
           Some (MkShape 3 false true (MkRect 0 0 7 7));
           Some (MkShape 4 false false (MkRect 0 0 7 7))],
   set_ses (ses_points (Some [Some (MkPoint 10 10); Some (MkPoint 20 10);
                              Some (MkPoint 0 0); Some (MkPoint 0 0)])) waypoint_drag).
Proof.
  apply (createBends_handles env0 waypoint_drag
           [Some (MkPoint 0 10); Some (MkPoint 10 10); Some (MkPoint 20 10);
            Some (MkPoint 30 10)]);
    [reflexivity | simpl; lia].
Defined.

Lemma init_after_destroy_witness :
  init env0 model0 (destroy label_text_handler) = init env0 model0 label_text_handler.
Proof.
  apply (proj2 (init_after_destroy env0 model0 label_text_handler eq_refl)
           [Some (MkPoint 0 10); Some (MkPoint 10 10); Some (MkPoint 20 10);
            Some (MkPoint 30 10)]).
  reflexivity.
Defined.

